(** * Bus tracking: trip statistics, geodesy, ETA and approach notifications

  A shallow embedding of the location pipeline of the bus tracking
  application:

  - [LocationUtils]      frontend/src/utils/locationUtils.js
  - [NotificationUtils]  frontend/src/utils/notificationUtils.js
  - [App]                backend/server.js (settings of the application)
  - [BusRoutes]          backend/routes/buses.js (with backend/models/Bus.js)
  - [Server]             backend/server.js (Socket.IO room handlers)
  - [UserRoutes]         backend/routes/users.js (tracking a bus)
  - [NotificationRoutes] backend/routes/notifications.js (creation)
  - [BusTracking]        frontend/src/pages/BusTracking.jsx (page state)

  JavaScript numbers are modelled as real numbers ([R]): the arithmetic
  of the sources is read as exact arithmetic, so rounding error is
  outside the model.  The values [Infinity] and [NaN] are modelled where
  exact arithmetic produces them: at the division by the average speed in
  [calculateETA] (the type [Ext]), and at the distance increment of a bus
  with no recorded location ([None]).  Dates are modelled by their epoch
  value in milliseconds ([Z]). *)

From Stdlib Require Import Reals Lra Lia ZArith Ascii String Sorted.
From stdpp Require Import gmap strings list fin_maps pretty.

#[local] Set Warnings "-clear-no-such-hyp".

Local Open Scope R_scope.

(** ** The parts of the JavaScript standard library that the sources use *)

Module JS.

(** A [Date], as its number of milliseconds since the epoch. *)
Definition Date := Z.

(** [Math.round x]: the integer nearest to [x], ties going up. *)
Definition Math_round (x : R) : Z := Zfloor (x + / 2).

(** [Math.floor] of the quotient of two integer-valued numbers [a / b]. *)
Definition Math_floor_div (a b : Z) : Z := Zfloor (IZR a / IZR b).

(** [a % b] on integer-valued numbers: the sign follows the dividend. *)
Definition Number_rem (a b : Z) : Z := Z.rem a b.

(** [Math.atan2 y x]: the angle of the point [(x, y)], in (-PI, PI]. *)
Definition Math_atan2 (y x : R) : R :=
  if Rlt_dec 0 x then atan (y / x)
  else if Rlt_dec x 0 then
    if Rle_dec 0 y then atan (y / x) + PI else atan (y / x) - PI
  else if Rlt_dec 0 y then PI / 2
  else if Rlt_dec y 0 then - (PI / 2)
  else 0.

(** Truthiness of a number: [0] is falsy. *)
Definition truthy (x : R) : bool := if Req_dec_T x 0 then false else true.

(** [x || 0] for an optional number [x] ([undefined] when absent). *)
Definition or_zero (x : option R) : R :=
  match x with
  | Some v => if truthy v then v else 0
  | None => 0
  end.

(** [!x] for an optional number [x]. *)
Definition not_number (x : option R) : bool :=
  match x with
  | Some v => negb (truthy v)
  | None => true
  end.

(** Template interpolation [`${n}`] of an integer-valued number. *)
Definition Number_toString (n : Z) : string := pretty n.

(** Numbers that may not be finite: a division by zero gives an infinity
    or [NaN], and arithmetic with [undefined] gives [NaN]. *)
Inductive Ext (A : Type) : Type :=
| Finite (a : A)
| PosInfinity
| NegInfinity
| NaN.
Arguments Finite {A} a.
Arguments PosInfinity {A}.
Arguments NegInfinity {A}.
Arguments NaN {A}.

(** [x / y] for finite numbers [x] and [y] (a divisor 0 is read as +0). *)
Definition Number_div (x y : R) : Ext R :=
  if Req_dec_T y 0 then
    if Rlt_dec 0 x then PosInfinity
    else if Rlt_dec x 0 then NegInfinity
    else NaN
  else Finite (x / y).

(** [x * k] for a finite number [k]. *)
Definition Number_times (x : Ext R) (k : R) : Ext R :=
  match x with
  | Finite a => Finite (a * k)
  | PosInfinity =>
      if Rlt_dec 0 k then PosInfinity
      else if Rlt_dec k 0 then NegInfinity else NaN
  | NegInfinity =>
      if Rlt_dec 0 k then NegInfinity
      else if Rlt_dec k 0 then PosInfinity else NaN
  | NaN => NaN
  end.

(** [Math.round] keeps the infinities and [NaN]. *)
Definition Math_round_ext (x : Ext R) : Ext Z :=
  match x with
  | Finite a => Finite (Math_round a)
  | PosInfinity => PosInfinity
  | NegInfinity => NegInfinity
  | NaN => NaN
  end.

(** [n < k] and [n === k] for a finite [k]: every comparison with [NaN] is
    false. *)
Definition Number_ltb (n : Ext Z) (k : Z) : bool :=
  match n with
  | Finite m => (m <? k)%Z
  | NegInfinity => true
  | PosInfinity | NaN => false
  end.

Definition Number_eqb (n : Ext Z) (k : Z) : bool :=
  match n with
  | Finite m => (m =? k)%Z
  | _ => false
  end.

(** [Math.floor(n / k)] and [n % k] for a finite positive [k]. *)
Definition Math_floor_div_ext (n : Ext Z) (k : Z) : Ext Z :=
  match n with
  | Finite m => Finite (Math_floor_div m k)
  | PosInfinity => PosInfinity
  | NegInfinity => NegInfinity
  | NaN => NaN
  end.

Definition Number_rem_ext (n : Ext Z) (k : Z) : Ext Z :=
  match n with
  | Finite m => Finite (Number_rem m k)
  | _ => NaN
  end.

(** Template interpolation [`${n}`]. *)
Definition Number_toString_ext (n : Ext Z) : string :=
  match n with
  | Finite m => Number_toString m
  | PosInfinity => "Infinity"
  | NegInfinity => "-Infinity"
  | NaN => "NaN"
  end.

(** The integer part of a number, rounding towards 0. *)
Definition truncate (x : R) : Z := if Rle_dec 0 x then Zfloor x else Zceil x.

(** [x % m] on numbers: [x - m * q] where [q] is [x / m] rounded towards 0,
    so that the sign follows the dividend. *)
Definition Number_mod (x m : R) : R := x - m * IZR (truncate (x / m)).

(** [Math.max a b]. *)
Definition Math_max (a b : R) : R := Rmax a b.

(** [arr[index]] for an integer-valued [index]: [undefined] ([None]) when
    the index is negative or not below the length. *)
Definition Array_get {A : Type} (arr : list A) (index : Z) : option A :=
  if (index <? 0)%Z then None else arr !! Z.to_nat index.

(** [Array.prototype.sort] with the comparator [(a, b) => key a - key b].
    The sort of the language is stable, and for such a comparator a stable
    sort has one possible result; it is computed here by insertion, every
    element going before the elements that follow it in the array and
    have the same key. *)
Fixpoint sort_insert {A : Type} (key : A -> R) (x : A) (sorted : list A)
    : list A :=
  match sorted with
  | [] => [x]
  | y :: rest =>
      if Rle_dec (key x) (key y) then x :: y :: rest
      else y :: sort_insert key x rest
  end.

Definition Array_sort_by {A : Type} (key : A -> R) (arr : list A) : list A :=
  foldr (sort_insert key) [] arr.

End JS.

(** ** frontend/src/utils/locationUtils.js *)

Module LocationUtils.
Import JS.

Record Coordinate : Type := mkCoordinate {
  latitude : R;
  longitude : R
}.

Definition toRadians (degrees : R) : R := degrees * (PI / 180).

Definition toDegrees (radians : R) : R := radians * (180 / PI).

(** The haversine term [a] of [calculateDistance]. *)
Definition haversine_a (point1 point2 : Coordinate) : R :=
  let dLat := toRadians (latitude point2 - latitude point1) in
  let dLon := toRadians (longitude point2 - longitude point1) in
  sin (dLat / 2) * sin (dLat / 2) +
  cos (toRadians (latitude point1)) * cos (toRadians (latitude point2)) *
  sin (dLon / 2) * sin (dLon / 2).

Definition calculateDistance (point1 point2 : Coordinate) : R :=
  let R := 6371 in
  let a := haversine_a point1 point2 in
  let c := 2 * Math_atan2 (sqrt a) (sqrt (1 - a)) in
  let distance := R * c in
  distance.

Definition isWithinRadius (point1 point2 : Coordinate) (radiusInKm : R) : bool :=
  let distance := calculateDistance point1 point2 in
  if Rle_dec distance radiusInKm then true else false.

(** The result object [{distance, eta, etaText}] of [calculateETA]. *)
Record ETA : Type := mkETA {
  eta_distance : R;
  eta : Ext Z;
  etaText : string
}.

(** [averageSpeed] is an optional argument, 30 km/h when absent.  At the
    speed 0 the division gives [Infinity], or [NaN] for the distance 0. *)
Definition calculateETA (currentLocation destination : Coordinate)
    (averageSpeed : option R) : ETA :=
  let averageSpeed := default 30 averageSpeed in
  let distance := calculateDistance currentLocation destination in
  let timeInHours := Number_div distance averageSpeed in
  let timeInMinutes := Math_round_ext (Number_times timeInHours 60) in
  let etaText :=
    if Number_ltb timeInMinutes 1 then "Arriving now"
    else if Number_eqb timeInMinutes 1 then "1 min"
    else if Number_ltb timeInMinutes 60 then
      Number_toString_ext timeInMinutes +:+ " mins"
    else
      let hours := Math_floor_div_ext timeInMinutes 60 in
      let mins := Number_rem_ext timeInMinutes 60 in
      Number_toString_ext hours +:+ "h " +:+ Number_toString_ext mins +:+ "m" in
  {| eta_distance := IZR (Math_round (distance * 100)) / 100;
     eta := timeInMinutes;
     etaText := etaText |}.

(** A stop document (backend/models/Stop.js), as the frontend receives it. *)
Record Stop : Type := mkStop {
  stop_id : string;
  stopName : string;
  location : Coordinate;
  address : option string
}.

(** The object [{...nearestStop, distance}]: the fields of a stop and a
    [distance] field. *)
Record StopWithDistance : Type := mkStopWithDistance {
  sd_stop : Stop;
  sd_distance : R
}.

(** The [for] loop of [findNearestStop] over [stops[1..]], carrying the
    variables [nearestStop] and [minDistance]. *)
Fixpoint nearest_loop (loc : Coordinate) (rest : list Stop)
    (nearestStop : Stop) (minDistance : R) : Stop * R :=
  match rest with
  | [] => (nearestStop, minDistance)
  | s :: rest' =>
      let distance := calculateDistance loc (location s) in
      if Rlt_dec distance minDistance
      then nearest_loop loc rest' s distance
      else nearest_loop loc rest' nearestStop minDistance
  end.

(** [stops] may be absent ([null] or [undefined]): [None]. *)
Definition findNearestStop (loc : Coordinate) (stops : option (list Stop))
    : option StopWithDistance :=
  match stops with
  | None => None
  | Some [] => None
  | Some (s0 :: rest) =>
      let '(nearestStop, minDistance) :=
        nearest_loop loc rest s0 (calculateDistance loc (location s0)) in
      Some {| sd_stop := nearestStop;
              sd_distance := IZR (Math_round (minDistance * 100)) / 100 |}
  end.

(** The result object [{stop, distance, isApproaching}]. *)
Record Approach : Type := mkApproach {
  ap_stop : Stop;
  ap_distance : R;
  isApproaching : bool
}.

Fixpoint approach_loop (busLocation : Coordinate) (stops : list Stop)
    (radiusInKm : R) : option Approach :=
  match stops with
  | [] => None
  | stop :: rest =>
      let distance := calculateDistance busLocation (location stop) in
      if Rle_dec distance radiusInKm
      then Some {| ap_stop := stop;
                   ap_distance := distance;
                   isApproaching := if Rle_dec distance radiusInKm
                                    then true else false |}
      else approach_loop busLocation rest radiusInKm
  end.

Definition checkBusApproachingStop (busLocation : Coordinate)
    (stops : option (list Stop)) (radiusInKm : option R) : option Approach :=
  let radiusInKm := default (5 / 10) radiusInKm in
  match stops with
  | None => None
  | Some [] => None
  | Some l => approach_loop busLocation l radiusInKm
  end.

Definition calculateBearing (point1 point2 : Coordinate) : R :=
  let dLon := toRadians (longitude point2 - longitude point1) in
  let lat1 := toRadians (latitude point1) in
  let lat2 := toRadians (latitude point2) in
  let y := sin dLon * cos lat2 in
  let x := cos lat1 * sin lat2 - sin lat1 * cos lat2 * cos dLon in
  let bearing := Math_atan2 y x in
  let bearing := toDegrees bearing in
  let bearing := Number_mod (bearing + 360) 360 in
  bearing.

Definition directions : list string :=
  ["North"; "North-East"; "East"; "South-East";
   "South"; "South-West"; "West"; "North-West"].

(** The result is [undefined] ([None]) when the index is no index of
    [directions]. *)
Definition getDirectionFromBearing (bearing : R) : option string :=
  let index := Number_rem (Math_round (bearing / 45)) 8 in
  Array_get directions index.

(** A route, as far as [getStopsAlongRoute] reads it; [waypoints] may be
    absent. *)
Record Route : Type := mkRoute {
  startPoint : Coordinate;
  waypoints : option (list Coordinate);
  endPoint : Coordinate
}.

(** The object [{...stop, distanceFromRoute, nearestRoutePoint}]. *)
Record StopAlongRoute : Type := mkStopAlongRoute {
  sar_stop : Stop;
  distanceFromRoute : R;
  nearestRoutePoint : Coordinate
}.

(** The inner loop of [getStopsAlongRoute]: the first route point within
    the tolerance of [stop], if any ([break] after the first match). *)
Fixpoint match_route_point (stop : Stop) (routePoints : list Coordinate)
    (toleranceInKm : R) : option StopAlongRoute :=
  match routePoints with
  | [] => None
  | routePoint :: rest =>
      let distance := calculateDistance (location stop) routePoint in
      if Rle_dec distance toleranceInKm
      then Some {| sar_stop := stop;
                   distanceFromRoute := distance;
                   nearestRoutePoint := routePoint |}
      else match_route_point stop rest toleranceInKm
  end.

(** The outer loop: the stops that match, in the order of [allStops]. *)
Fixpoint stops_near_route (allStops : list Stop) (routePoints : list Coordinate)
    (toleranceInKm : R) : list StopAlongRoute :=
  match allStops with
  | [] => []
  | stop :: rest =>
      match match_route_point stop routePoints toleranceInKm with
      | Some found => found :: stops_near_route rest routePoints toleranceInKm
      | None => stops_near_route rest routePoints toleranceInKm
      end
  end.

Definition routePoints (route : Route) : list Coordinate :=
  [startPoint route] ++ default [] (waypoints route) ++ [endPoint route].

(** [route] and [allStops] may be absent; the tolerance is 0.2 km when
    absent. *)
Definition getStopsAlongRoute (route : option Route)
    (allStops : option (list Stop)) (toleranceInKm : option R)
    : list StopAlongRoute :=
  let toleranceInKm := default (2 / 10) toleranceInKm in
  match route, allStops with
  | Some route, Some allStops =>
      let stopsAlongRoute :=
        stops_near_route allStops (routePoints route) toleranceInKm in
      Array_sort_by (fun a => latitude (location (sar_stop a))) stopsAlongRoute
  | _, _ => []
  end.

(** The result object [{stop, distance, eta, etaText}] of
    [calculateStopETA]. *)
Record StopETA : Type := mkStopETA {
  se_stop : Stop;
  se_distance : R;
  se_eta : Z;
  se_etaText : string
}.

(** [currentSpeed] is 30 km/h when absent. *)
Definition calculateStopETA (currentLocation : Coordinate) (nextStop : Stop)
    (currentSpeed : option R) : StopETA :=
  let currentSpeed := default 30 currentSpeed in
  let distance := calculateDistance currentLocation (location nextStop) in
  let timeInHours := distance / Math_max currentSpeed 5 in
  let timeInMinutes := Math_round (timeInHours * 60) in
  {| se_stop := nextStop;
     se_distance := distance;
     se_eta := timeInMinutes;
     se_etaText :=
       if (timeInMinutes <? 1)%Z then "Arriving now"
       else if (timeInMinutes =? 1)%Z then "1 min"
       else if (timeInMinutes <? 60)%Z then
         Number_toString timeInMinutes +:+ " mins"
       else
         Number_toString (Math_floor_div timeInMinutes 60) +:+ "h " +:+
         Number_toString (Number_rem timeInMinutes 60) +:+ "m" |}.

End LocationUtils.

(** ** frontend/src/utils/notificationUtils.js *)

Module NotificationUtils.
Import JS.
Import LocationUtils (Coordinate, latitude, longitude, Stop, stop_id,
                      stopName, location).

(** [Notification.permission] of the browser. *)
Inductive Permission : Type := granted | denied | default_permission.

(** The title and the options that [new Notification(title, options)] is
    called with: a notification that the code asks the browser for. *)
Record Notification : Type := mkNotification {
  title : string;
  body : string;
  tag : string;
  requireInteraction : bool;
  actions : list (string * string)
}.

(** A bus object as the page holds it (populated [route]). *)
Record Bus : Type := mkBus {
  bus_id : string;
  busNumber : string;
  routeName : string;
  currentLocation : Coordinate;
  lastUpdated : Date
}.

(** The payload of a ['bus-location-update'] event. *)
Record BusUpdate : Type := mkBusUpdate {
  busId : string;
  upd_location : Coordinate;
  timestamp : Date
}.

(** [Math.toRadians], installed on [Math] by this module. *)
Definition Math_toRadians (degrees : R) : R := degrees * (PI / 180).

(** The module's own copy of the haversine distance. *)
Definition calculateDistance (point1 point2 : Coordinate) : R :=
  let R := 6371 in
  let dLat := Math_toRadians (latitude point2 - latitude point1) in
  let dLon := Math_toRadians (longitude point2 - longitude point1) in
  let a :=
    sin (dLat / 2) * sin (dLat / 2) +
    cos (Math_toRadians (latitude point1)) *
    cos (Math_toRadians (latitude point2)) *
    sin (dLon / 2) * sin (dLon / 2) in
  let c := 2 * Math_atan2 (sqrt a) (sqrt (1 - a)) in
  R * c.

(** [showNotification]: [new Notification] is called only when the
    permission is ['granted']; the result lists the notifications asked
    for (none or one). *)
Definition showNotification (perm : Permission) (n : Notification)
    : list Notification :=
  match perm with
  | granted => [n]
  | _ => []
  end.

Definition newline : string := String (Ascii.ascii_of_nat 10) EmptyString.

Definition showBusArrivalNotification (perm : Permission) (bus : Bus)
    (stop : Stop) (distance : R) (eta : Z) : list Notification :=
  let title := "Bus " +:+ busNumber bus +:+ " Approaching" in
  let body :=
    "Route: " +:+ routeName bus +:+ newline +:+
    "Stop: " +:+ stopName stop +:+ newline +:+
    (if (eta <? 1)%Z then "Arriving now!"
     else Number_toString eta +:+ " min away") in
  showNotification perm
    {| title := title;
       body := body;
       tag := "bus-" +:+ bus_id bus +:+ "-stop-" +:+ stop_id stop;
       requireInteraction := (eta <? 5)%Z;
       actions := if (eta <? 5)%Z then [("view", "View on Map")] else [] |}.

(** The accumulator [{...stop, distance}] of the [reduce] that looks for
    the nearest stop. *)
Record Nearest : Type := mkNearest {
  n_stop : Stop;
  n_distance : R
}.

(** The callback of [stops.reduce(..., null)]. *)
Definition nearest_step (upd : BusUpdate) (nearest : option Nearest)
    (stop : Stop) : option Nearest :=
  let distance := calculateDistance (upd_location upd) (location stop) in
  match nearest with
  | None => Some {| n_stop := stop; n_distance := distance |}
  | Some n =>
      if Rlt_dec distance (n_distance n)
      then Some {| n_stop := stop; n_distance := distance |}
      else nearest
  end.

Definition checkAndNotifyBusUpdates (perm : Permission)
    (trackedBuses : list Bus) (busUpdate : BusUpdate) (stops : list Stop)
    : list Notification :=
  match find (fun bus => String.eqb (bus_id bus) (busId busUpdate))
             trackedBuses with
  | None => []
  | Some trackedBus =>
      let nearestStop := fold_left (nearest_step busUpdate) stops None in
      match nearestStop with
      | Some n =>
          if Rle_dec (n_distance n) (5 / 10) then
            let eta := Math_round (n_distance n / 30 * 60) in
            showBusArrivalNotification perm trackedBus (n_stop n)
              (n_distance n) eta
          else []
      | None => []
      end
  end.

End NotificationUtils.

(** ** frontend/src/pages/BusTracking.jsx: the socket listener *)

Module BusTracking.
Import JS LocationUtils NotificationUtils.

(** The two pieces of page state that the listener updates. *)
Record PageState : Type := mkPageState {
  buses : list Bus;
  trackedBuses : list Bus
}.

(** The update applied by both [setBuses] and [setTrackedBuses]. *)
Definition apply_update (data : BusUpdate) (prev : list Bus) : list Bus :=
  map (fun bus =>
         if String.eqb (bus_id bus) (busId data)
         then {| bus_id := bus_id bus;
                 busNumber := busNumber bus;
                 routeName := routeName bus;
                 currentLocation := upd_location data;
                 lastUpdated := timestamp data |}
         else bus) prev.

(** The handler that [setupSocketListeners] registers for
    ['bus-location-update'].  [capturedTracked] and [capturedStops] are
    the values of [trackedBuses] and [stops] that the handler closes
    over: those of the render whose effect registered it, and the effect
    depends on [user] only (both lists are [[]] when the page mounts).
    The result is the new page state and the notifications asked for
    while handling [data]. *)
Definition onBusLocationUpdate (perm : Permission)
    (capturedTracked : list Bus) (capturedStops : list Stop)
    (st : PageState) (data : BusUpdate) : PageState * list Notification :=
  ({| buses := apply_update data (buses st);
      trackedBuses := apply_update data (trackedBuses st) |},
   checkAndNotifyBusUpdates perm capturedTracked data capturedStops).

(** Handling a stream of events, oldest first; the notifications asked
    for are listed in their order. *)
Fixpoint handle_events (perm : Permission) (capturedTracked : list Bus)
    (capturedStops : list Stop) (st : PageState) (events : list BusUpdate)
    : PageState * list Notification :=
  match events with
  | [] => (st, [])
  | data :: rest =>
      let '(st1, fired1) :=
        onBusLocationUpdate perm capturedTracked capturedStops st data in
      let '(st2, fired2) :=
        handle_events perm capturedTracked capturedStops st1 rest in
      (st2, fired1 ++ fired2)
  end.

Definition isTracking (st : PageState) (busId : string) : bool :=
  existsb (fun bus => String.eqb (bus_id bus) busId) (trackedBuses st).

(** [handleTrackBus]; [apiOk] tells whether [POST /users/track-bus/:busId]
    succeeded (a failure is caught and changes nothing). *)
Definition handleTrackBus (apiOk : bool) (st : PageState) (busId : string)
    : PageState :=
  if apiOk then
    match find (fun b => String.eqb (bus_id b) busId) (buses st) with
    | Some bus =>
        {| buses := buses st; trackedBuses := trackedBuses st ++ [bus] |}
    | None => st
    end
  else st.

(** [handleUntrackBus]; [apiOk] tells whether
    [DELETE /users/track-bus/:busId] succeeded. *)
Definition handleUntrackBus (apiOk : bool) (st : PageState) (busId : string)
    : PageState :=
  if apiOk then
    {| buses := buses st;
       trackedBuses :=
         List.filter (fun bus => negb (String.eqb (bus_id bus) busId))
                     (trackedBuses st) |}
  else st.

(** [getBusETA], for the user location of the page (absent until the
    browser reports it), the stops of the page and the current location of
    the bus (which may be absent). *)
Definition getBusETA (userLocation : option Coordinate) (stops : list Stop)
    (busLocation : option Coordinate) : option ETA :=
  match userLocation, busLocation with
  | Some user, Some bus =>
      match findNearestStop user (Some stops) with
      | Some nearestStop =>
          Some (calculateETA bus (location (sd_stop nearestStop)) None)
      | None => None
      end
  | _, _ => None
  end.

End BusTracking.

(** ** backend/server.js: the settings of the application *)

Module App.

(** The Socket.IO server that [server.js] creates with [new Server(...)]. *)
Inductive Io : Type := IoServer.

(** The settings that [server.js] stores with [app.set]: it stores none;
    the server [io] is created and exported, but never stored under a
    name. *)
Definition settings : gmap string Io := ∅.

(** [req.app.get(name)] for a name that Express does not set by itself,
    such as ['io']; [None] is [undefined]. *)
Definition get (name : string) : option Io := settings !! name.

End App.

(** ** backend/models/Bus.js and backend/routes/buses.js *)

Module BusRoutes.
Import JS.
Import LocationUtils (Coordinate, mkCoordinate, latitude, longitude).

Inductive Status : Type := active | inactive | maintenance.

(** [tripStats] of the bus schema.  [tripStartTime] has no default: it
    is absent until a handler sets it.  [lastLocation] is a nested path
    of two numbers without defaults, which the location update sets
    together; it is [None] while the two numbers are not set. *)
Record TripStats : Type := mkTripStats {
  distanceToday : R;
  totalDistance : R;
  tripStartTime : option Date;
  lastLocation : option Coordinate
}.

Record Bus : Type := mkBus {
  _id : string;
  busNumber : string;
  currentLocation : Coordinate;
  status : Status;
  route : string;
  lastUpdated : option Date;
  speed : R;
  tripStats : TripStats
}.

(** [new Bus({busNumber, route, currentLocation})] of [POST /], with the
    defaults of the schema; [now] is the value of [Date.now]. *)
Definition newBus (id busNumber route : string)
    (currentLocation : Coordinate) (now : Date) : Bus :=
  {| _id := id;
     busNumber := busNumber;
     currentLocation := currentLocation;
     status := active;
     route := route;
     lastUpdated := Some now;
     speed := 0;
     tripStats := {| distanceToday := 0;
                     totalDistance := 0;
                     tripStartTime := None;
                     lastLocation := None |} |}.

(** The [Bus] collection: documents by id. *)
Abbreviation DB := (gmap string Bus).

(** The validated body of [PATCH /:id/location]; [speed] is optional. *)
Record LocationBody : Type := mkLocationBody {
  body_latitude : R;
  body_longitude : R;
  body_speed : option R
}.

(** The payload emitted as ['bus-location-update']. *)
Record UpdateEvent : Type := mkUpdateEvent {
  ev_busId : string;
  ev_location : Coordinate;
  ev_speed : R;
  ev_timestamp : option Date;
  ev_tripStats : TripStats
}.

(** "Calculate distance traveled since last update": the haversine
    formula as the handler writes it.  [tripStats.lastLocation] is a
    nested path of the schema, so that [currentBus.tripStats.lastLocation]
    is an object, and truthy, also when no location has been recorded:
    the branch is always taken.  While no location has been recorded
    [lastLat] and [lastLng] are [undefined] and the result is [NaN],
    which is [None] here. *)
Definition distanceIncrement (currentBus : Bus) (latitude longitude : R)
    : option R :=
  match lastLocation (tripStats currentBus) with
  | Some last =>
      let lastLat := LocationUtils.latitude last in
      let lastLng := LocationUtils.longitude last in
      let R := 6371 in
      let dLat := (latitude - lastLat) * PI / 180 in
      let dLng := (longitude - lastLng) * PI / 180 in
      let a := sin (dLat / 2) * sin (dLat / 2) +
               cos (lastLat * PI / 180) * cos (latitude * PI / 180) *
               sin (dLng / 2) * sin (dLng / 2) in
      let c := 2 * Math_atan2 (sqrt a) (sqrt (1 - a)) in
      Some (R * c)
  | None => None
  end.

(** "Calculate speed if not provided (based on distance and time)";
    [distanceIncrement > 0] is false for [NaN]. *)
Definition calculatedSpeed (currentBus : Bus) (speed : option R)
    (distanceIncrement : option R) (now : Date) : R :=
  let calculatedSpeed := or_zero speed in
  if not_number speed then
    match distanceIncrement with
    | Some distanceIncrement =>
        if Rlt_dec 0 distanceIncrement then
          match lastUpdated currentBus with
          | Some last =>
              let timeDiffHours := IZR (now - last) / (1000 * 60 * 60) in
              if Rlt_dec 0 timeDiffHours
              then distanceIncrement / timeDiffHours
              else calculatedSpeed
          | None => calculatedSpeed
          end
        else calculatedSpeed
    | None => calculatedSpeed
    end
  else calculatedSpeed.

(** The document after [findByIdAndUpdate(id, updateData, {new: true})].
    The numbers of [updateData] are cast to the types of the schema: when
    the increment is [NaN], so are [tripStats.distanceToday] and
    [tripStats.totalDistance], the cast fails and the update is refused
    with an exception ([None]). *)
Definition updatedBus (currentBus : Bus) (body : LocationBody) (now : Date)
    : option Bus :=
  let latitude := body_latitude body in
  let longitude := body_longitude body in
  let distanceIncrement := distanceIncrement currentBus latitude longitude in
  let calculatedSpeed :=
    calculatedSpeed currentBus (body_speed body) distanceIncrement now in
  let stats := tripStats currentBus in
  match distanceIncrement with
  | Some inc =>
      Some {| _id := _id currentBus;
              busNumber := busNumber currentBus;
              currentLocation := mkCoordinate latitude longitude;
              status := status currentBus;
              route := route currentBus;
              lastUpdated := Some now;
              speed := calculatedSpeed;
              tripStats :=
                {| distanceToday := distanceToday stats + inc;
                   totalDistance := totalDistance stats + inc;
                   tripStartTime := match tripStartTime stats with
                                    | Some t => Some t
                                    | None => Some now
                                    end;
                   lastLocation := Some (mkCoordinate latitude longitude) |} |}
  | None => None
  end.

Definition updateEvent (bus : Bus) : UpdateEvent :=
  {| ev_busId := _id bus;
     ev_location := currentLocation bus;
     ev_speed := speed bus;
     ev_timestamp := lastUpdated bus;
     ev_tripStats := tripStats bus |}.

Inductive Response : Type :=
| NotFound                (* 404, 'Bus not found' *)
| ServerError             (* 500, 'Server error': an exception was caught *)
| Ok (bus : Bus).         (* 200 with the updated document *)

(** What a handler does: the collection afterwards, the events it emits
    (each with the room it is sent to) and its response. *)
Record Outcome : Type := mkOutcome {
  db_after : DB;
  emitted : list (string * UpdateEvent);
  response : Response
}.

(** [PATCH /:id/location]; [now] is the handler's [new Date()].  The
    document is updated before the event is emitted: when
    [req.app.get('io')] is [undefined], [io.to] throws after the update
    has been stored, nothing is emitted and the handler answers 500. *)
Definition patchLocation (db : DB) (id : string) (body : LocationBody)
    (now : Date) : Outcome :=
  match db !! id with
  | None => {| db_after := db; emitted := []; response := NotFound |}
  | Some currentBus =>
      match updatedBus currentBus body now with
      | None => {| db_after := db; emitted := []; response := ServerError |}
      | Some bus =>
          match App.get "io" with
          | Some io =>
              {| db_after := <[id := bus]> db;
                 emitted := [("bus-" +:+ _id bus, updateEvent bus)];
                 response := Ok bus |}
          | None =>
              {| db_after := <[id := bus]> db;
                 emitted := [];
                 response := ServerError |}
          end
      end
  end.

(** The update [{'tripStats.distanceToday': 0, 'tripStats.tripStartTime': now}]. *)
Definition resetBus (bus : Bus) (now : Date) : Bus :=
  {| _id := _id bus;
     busNumber := busNumber bus;
     currentLocation := currentLocation bus;
     status := status bus;
     route := route bus;
     lastUpdated := lastUpdated bus;
     speed := speed bus;
     tripStats :=
       {| distanceToday := 0;
          totalDistance := totalDistance (tripStats bus);
          tripStartTime := Some now;
          lastLocation := lastLocation (tripStats bus) |} |}.

(** [PATCH /:id/reset-distance]; [now] is the handler's [new Date()]. *)
Definition resetDistance (db : DB) (id : string) (now : Date) : Outcome :=
  match db !! id with
  | None => {| db_after := db; emitted := []; response := NotFound |}
  | Some bus0 =>
      let bus := resetBus bus0 now in
      {| db_after := <[id := bus]> db; emitted := []; response := Ok bus |}
  end.

(** The two requests that change trip statistics. *)
Inductive Request : Type :=
| PatchLocation (id : string) (body : LocationBody) (now : Date)
| ResetDistance (id : string) (now : Date).

Definition handle (db : DB) (req : Request) : Outcome :=
  match req with
  | PatchLocation id body now => patchLocation db id body now
  | ResetDistance id now => resetDistance db id now
  end.

(** Requests handled one after the other, oldest first. *)
Definition handle_all (db : DB) (reqs : list Request) : DB :=
  fold_left (fun db req => db_after (handle db req)) reqs db.

(** The body of [PUT /:id]: every field is optional.  A current location
    that is given has its two coordinates, and a status that is given is
    one of the three of the schema. *)
Record BusBody : Type := mkBusBody {
  put_busNumber : option string;
  put_route : option string;
  put_currentLocation : option Coordinate;
  put_status : option Status
}.

(** The white space that [trim()] removes, among the characters of a
    byte string. *)
Definition is_space (c : ascii) : bool :=
  let n := nat_of_ascii c in
  ((9 <=? n)%nat && (n <=? 13)%nat) || (n =? 32)%nat.

Fixpoint trim_start (s : string) : string :=
  match s with
  | String c rest => if is_space c then trim_start rest else s
  | EmptyString => EmptyString
  end.

(** The sanitizer [trim()] of the validation chain. *)
Definition trim (s : string) : string :=
  String.rev (trim_start (String.rev (trim_start s))).

Definition is_hex_digit (c : ascii) : bool :=
  let n := nat_of_ascii c in
  ((48 <=? n)%nat && (n <=? 57)%nat) ||
  ((65 <=? n)%nat && (n <=? 70)%nat) ||
  ((97 <=? n)%nat && (n <=? 102)%nat).

(** The validator [isMongoId()]: the hexadecimal form of an ObjectId, 24
    hexadecimal digits. *)
Definition isMongoId (s : string) : bool :=
  (String.length s =? 24)%nat && forallb is_hex_digit (list_ascii_of_string s).

(** The validation chains of [PUT /:id] on [busNumber] and [route]:
    [optional().trim().isLength({min: 1})] and [optional().isMongoId()];
    the result is [errors.isEmpty()]. *)
Definition putValidation (body : BusBody) : bool :=
  match put_busNumber body with
  | Some number => negb (String.eqb (trim number) "")
  | None => true
  end &&
  match put_route body with
  | Some route => isMongoId route
  | None => true
  end.

(** Truthiness of an optional string: absent and empty are falsy. *)
Definition truthy_string (x : option string) : option string :=
  match x with
  | Some v => if String.eqb v "" then None else Some v
  | None => None
  end.

(** The replies of the other bus handlers. *)
Inductive Reply : Type :=
| Reply200 (bus : Bus)      (* 200 with a document *)
| Reply200_deleted          (* 200, 'Bus deleted successfully' *)
| Reply400                  (* 400 with the errors of the validation *)
| Reply404                  (* 404, 'Bus not found' *)
| Reply500.                 (* 500, 'Server error' *)

(** [GET /:id]. *)
Definition getBus (db : DB) (id : string) : Reply :=
  match db !! id with
  | Some bus => Reply200 bus
  | None => Reply404
  end.

(** The unique index of [busNumber] in the schema: another document has
    the number. *)
Definition number_taken (db : DB) (id : string) (number : string) : bool :=
  existsb (fun entry => negb (String.eqb (fst entry) id) &&
                        String.eqb (busNumber (snd entry)) number)
          (map_to_list db).

(** The document after the [updates] of [PUT /:id]; the bus number of the
    body is the trimmed one. *)
Definition putUpdates (bus : Bus) (body : BusBody) (now : Date) : Bus :=
  {| _id := _id bus;
     busNumber :=
       default (busNumber bus) (truthy_string (trim <$> put_busNumber body));
     currentLocation := default (currentLocation bus) (put_currentLocation body);
     status := default (status bus) (put_status body);
     route := default (route bus) (truthy_string (put_route body));
     lastUpdated := Some now;
     speed := speed bus;
     tripStats := tripStats bus |}.

(** [PUT /:id].  A body that fails the validation is answered 400 before
    anything else happens; an update that would give two buses the same
    number is refused by the unique index, and the handler answers 500. *)
Definition putBus (db : DB) (id : string) (body : BusBody) (now : Date)
    : DB * Reply :=
  if negb (putValidation body) then (db, Reply400)
  else
    match db !! id with
    | None => (db, Reply404)
    | Some bus =>
        let bus' := putUpdates bus body now in
        if number_taken db id (busNumber bus')
        then (db, Reply500)
        else (<[id := bus']> db, Reply200 bus')
    end.

(** [DELETE /:id]. *)
Definition deleteBus (db : DB) (id : string) : DB * Reply :=
  match db !! id with
  | None => (db, Reply404)
  | Some _ => (delete id db, Reply200_deleted)
  end.

(** All the requests that change the collection of buses, except the
    creation of a bus. *)
Inductive AdminRequest : Type :=
| Trip (req : Request)
| PutBus (id : string) (body : BusBody) (now : Date)
| DeleteBus (id : string).

Definition handle_admin (db : DB) (req : AdminRequest) : DB :=
  match req with
  | Trip r => db_after (handle db r)
  | PutBus id body now => fst (putBus db id body now)
  | DeleteBus id => fst (deleteBus db id)
  end.

Definition handle_admin_all (db : DB) (reqs : list AdminRequest) : DB :=
  fold_left handle_admin reqs db.

End BusRoutes.

(** ** backend/server.js: the rooms of bus observers *)

Module Server.

(** Modelled from the spec: the membership of Socket.IO rooms, which
    [socket.join], [socket.leave] and the disconnection of a socket
    change inside the Socket.IO library: "a mapping from entity id to a
    set of observer handles", here from room name to the set of ids of
    the sockets in the room. *)
Abbreviation Rooms := (gmap string (gset string)).

Definition subscribers (rooms : Rooms) (room : string) : gset string :=
  default ∅ (rooms !! room).

(** Modelled from the spec: [socket.join(room)]. *)
Definition socket_join (rooms : Rooms) (room socket : string) : Rooms :=
  <[room := {[socket]} ∪ subscribers rooms room]> rooms.

(** Modelled from the spec: [socket.leave(room)]. *)
Definition socket_leave (rooms : Rooms) (room socket : string) : Rooms :=
  match rooms !! room with
  | Some members => <[room := members ∖ {[socket]}]> rooms
  | None => rooms
  end.

(** Modelled from the spec: what the library does to the rooms when a
    socket disconnects ([leaveAll]). *)
Definition socket_leave_all (rooms : Rooms) (socket : string) : Rooms :=
  (fun members => members ∖ {[socket]}) <$> rooms.

(** The events of a connection that the server handles. *)
Inductive SocketEvent : Type :=
| JoinBusTracking (busId : string)
| LeaveBusTracking (busId : string)
| Disconnect.

Definition room_of (busId : string) : string := "bus-" +:+ busId.

(** The handlers registered in [io.on('connection', ...)] for the socket
    [socket]; the ['disconnect'] handler itself only logs. *)
Definition on_event (rooms : Rooms) (socket : string) (ev : SocketEvent)
    : Rooms :=
  match ev with
  | JoinBusTracking busId => socket_join rooms (room_of busId) socket
  | LeaveBusTracking busId => socket_leave rooms (room_of busId) socket
  | Disconnect => socket_leave_all rooms socket
  end.

(** The events of all connections, each with the id of its socket,
    handled in their order of arrival. *)
Definition on_events (rooms : Rooms) (events : list (string * SocketEvent))
    : Rooms :=
  fold_left (fun rooms e => on_event rooms (fst e) (snd e)) events rooms.

(** Modelled from the spec: the sockets that [io.to(room).emit(...)]
    delivers to, the current members of [room]. *)
Definition io_to (rooms : Rooms) (room : string) : gset string :=
  subscribers rooms room.

(** The payload that the ['update-bus-location'] handler relays. *)
Record Relay : Type := mkRelay {
  relay_busId : string;
  relay_location : LocationUtils.Coordinate;
  relay_timestamp : JS.Date
}.

(** The ['update-bus-location'] handler of the socket [socket], for the
    data [{busId, location}]: the sockets that receive the relayed event,
    and the event.  The sender is not looked at. *)
Definition on_update_bus_location (rooms : Rooms) (socket : string)
    (busId : string) (loc : LocationUtils.Coordinate) (now : JS.Date)
    : gset string * Relay :=
  (io_to rooms (room_of busId),
   {| relay_busId := busId; relay_location := loc; relay_timestamp := now |}).

(** The sockets that receive the events that a bus handler emitted. *)
Definition receivers (rooms : Rooms)
    (emitted : list (string * BusRoutes.UpdateEvent)) : gset string :=
  ⋃ (map (fun e => io_to rooms (fst e)) emitted).

End Server.

(** ** backend/routes/users.js: tracking and untracking a bus *)

Module UserRoutes.

Inductive TrackReply : Type :=
| TrackOk              (* 200, tracking started or stopped *)
| BusNotFound          (* 404, 'Bus not found' *)
| AlreadyTracked       (* 400, 'Bus already being tracked' *)
| NotTracked.          (* 400, 'Bus not being tracked' *)

(** [user.trackedBuses.includes(busId)]. *)
Definition includes (trackedBuses : list string) (busId : string) : bool :=
  existsb (fun b => String.eqb b busId) trackedBuses.

(** [POST /track-bus/:busId] for an authenticated user whose document
    holds [trackedBuses]: the list afterwards and the reply. *)
Definition trackBus (buses : gmap string BusRoutes.Bus)
    (trackedBuses : list string) (busId : string)
    : list string * TrackReply :=
  match buses !! busId with
  | None => (trackedBuses, BusNotFound)
  | Some _ =>
      if includes trackedBuses busId then (trackedBuses, AlreadyTracked)
      else (trackedBuses ++ [busId], TrackOk)
  end.

(** [DELETE /track-bus/:busId]. *)
Definition untrackBus (trackedBuses : list string) (busId : string)
    : list string * TrackReply :=
  if negb (includes trackedBuses busId) then (trackedBuses, NotTracked)
  else (List.filter (fun b => negb (String.eqb b busId)) trackedBuses, TrackOk).

Inductive TrackRequest : Type :=
| TrackBus (busId : string)
| UntrackBus (busId : string).

Definition handle_track (buses : gmap string BusRoutes.Bus)
    (trackedBuses : list string) (req : TrackRequest) : list string :=
  match req with
  | TrackBus busId => fst (trackBus buses trackedBuses busId)
  | UntrackBus busId => fst (untrackBus trackedBuses busId)
  end.

End UserRoutes.

(** ** backend/routes/notifications.js: creating a notification *)

Module NotificationRoutes.

(** Where a created notification is emitted to. *)
Inductive Target : Type :=
| ToRoom (room : string)   (* io.to(room).emit *)
| ToAll.                   (* io.emit *)

Inductive CreateReply : Type :=
| Created                  (* 201, 'Notification created successfully' *)
| TargetsNotFound          (* 400, 'One or more target users not found' *)
| CreateFailed.            (* 500, 'Server error': an exception was caught *)

(** What [POST /] does: whether the notification has been saved, the
    emissions made and the reply. *)
Record CreateOutcome : Type := mkCreateOutcome {
  saved : bool;
  emits : list Target;
  reply : CreateReply
}.

(** [User.find({_id: {$in: targetUsers}})]: the users, each once, whose id
    is among the targets (ids are well-formed ObjectIds). *)
Definition usersExist (users : gset string) (targetUsers : list string)
    : list string :=
  elements (users ∩ list_to_set targetUsers).

(** The emissions that the handler addresses: one to the room of each
    target user, or one to everybody. *)
Definition emissions (targetUsers : option (list string)) : list Target :=
  match targetUsers with
  | Some (t :: ts) =>
      map (fun userId => ToRoom ("user-" +:+ userId)) (t :: ts)
  | _ => [ToAll]
  end.

(** "Verify target users exist if provided": the check fails. *)
Definition targets_missing (users : gset string)
    (targetUsers : option (list string)) : bool :=
  match targetUsers with
  | Some (t :: ts) =>
      negb (length (usersExist users (t :: ts)) =? length (t :: ts))%nat
  | _ => false
  end.

(** [POST /], after the validation of the message; [targetUsers] may be
    absent.  The notification is saved before it is emitted: when
    [req.app.get('io')] is [undefined], the first [io.to] or [io.emit]
    throws after the notification has been saved, nothing is emitted and
    the handler answers 500. *)
Definition createNotification (users : gset string)
    (targetUsers : option (list string)) : CreateOutcome :=
  if targets_missing users targetUsers
  then {| saved := false; emits := []; reply := TargetsNotFound |}
  else
    match App.get "io" with
    | Some io =>
        {| saved := true; emits := emissions targetUsers; reply := Created |}
    | None =>
        {| saved := true; emits := []; reply := CreateFailed |}
    end.

End NotificationRoutes.

(** ** Vocabulary of the statements *)

Module Spec.
Import JS.

(** The length of a path: the sum of the haversine distances between
    consecutive coordinates; a path of fewer than two points has length 0. *)
Fixpoint path_length (cs : list LocationUtils.Coordinate) : R :=
  match cs with
  | c1 :: (c2 :: _) as rest =>
      LocationUtils.calculateDistance c1 c2 + path_length rest
  | _ => 0
  end.

(** A location sample: the request body and the time of its handling. *)
Definition Sample : Type := BusRoutes.LocationBody * Date.

Definition sample_coordinate (s : Sample) : LocationUtils.Coordinate :=
  LocationUtils.mkCoordinate (BusRoutes.body_latitude (fst s))
                             (BusRoutes.body_longitude (fst s)).

Definition sample_request (id : string) (s : Sample) : BusRoutes.Request :=
  BusRoutes.PatchLocation id (fst s) (snd s).

(** The bus of an update is among the tracked buses. *)
Definition is_tracked (tracked : list NotificationUtils.Bus)
    (u : NotificationUtils.BusUpdate) : bool :=
  existsb (fun bus => String.eqb (NotificationUtils.bus_id bus)
                                 (NotificationUtils.busId u)) tracked.

(** The location of an update is within 0.5 km of the stop. *)
Definition within_radius (u : NotificationUtils.BusUpdate)
    (s : LocationUtils.Stop) : bool :=
  if Rle_dec (LocationUtils.calculateDistance
                (NotificationUtils.upd_location u) (LocationUtils.location s))
             (5 / 10)
  then true else false.

(** An update of a tracked bus that is within 0.5 km of some stop. *)
Definition inside (tracked : list NotificationUtils.Bus)
    (stops : list LocationUtils.Stop) (u : NotificationUtils.BusUpdate) : bool :=
  is_tracked tracked u && existsb (within_radius u) stops.

(** The point [km] kilometres due north of the origin, for
    [0 <= km < 6371 * PI]. *)
Definition north_of_origin (km : R) : LocationUtils.Coordinate :=
  LocationUtils.mkCoordinate (km * 180 / (6371 * PI)) 0.

Definition origin : LocationUtils.Coordinate := LocationUtils.mkCoordinate 0 0.

(** [cur], at index [i] of [seen], is the first stop of [seen] at the least
    distance from [loc]. *)
Definition first_nearest (loc : LocationUtils.Coordinate)
    (seen : list LocationUtils.Stop) (i : nat) (cur : LocationUtils.Stop)
    : Prop :=
  let dist s := LocationUtils.calculateDistance loc (LocationUtils.location s) in
  seen !! i = Some cur /\
  (forall j s, seen !! j = Some s -> dist cur <= dist s) /\
  (forall j s, (j < i)%nat -> seen !! j = Some s -> dist cur < dist s).

(** The nearest stop found so far is within 0.5 km. *)
Definition nearest_within (nearest : option NotificationUtils.Nearest) : bool :=
  match nearest with
  | Some n =>
      if Rle_dec (NotificationUtils.n_distance n) (5 / 10) then true else false
  | None => false
  end.

(** The invariant of the daily counter, on one bus of the collection. *)
Definition counters_ordered (db : gmap string BusRoutes.Bus) (id : string)
    : Prop :=
  exists bus, db !! id = Some bus /\
    0 <= BusRoutes.distanceToday (BusRoutes.tripStats bus)
      <= BusRoutes.totalDistance (BusRoutes.tripStats bus).

(** The collection of buses is in order: every document is stored under
    its own id, its counters satisfy [0 <= distanceToday <= totalDistance],
    and no two documents have the same bus number. *)
Definition collection_ok (db : gmap string BusRoutes.Bus) : Prop :=
  (forall (id : string) bus, db !! id = Some bus ->
     BusRoutes._id bus = id /\
     0 <= BusRoutes.distanceToday (BusRoutes.tripStats bus)
       <= BusRoutes.totalDistance (BusRoutes.tripStats bus)) /\
  (forall i j bi bj, db !! i = Some bi -> db !! j = Some bj ->
     BusRoutes.busNumber bi = BusRoutes.busNumber bj -> i = j).

(** Every room with a member is the room of a bus. *)
Definition only_bus_rooms (rooms : gmap string (gset string)) : Prop :=
  forall room, (forall busId, room <> Server.room_of busId) ->
               Server.subscribers rooms room = ∅.

(** A second bus, numbered 7, and the collection of the two buses. *)
Definition other_bus : BusRoutes.Bus :=
  BusRoutes.newBus "b2" "7" "r1" origin 0%Z.

End Spec.

(** ** Concrete data of the scenarios *)

Module Scenario.
Import JS.

(** A tracked bus, a stop at the origin, and two consecutive updates that
    put the bus at the stop. *)
Definition bus1 : NotificationUtils.Bus :=
  {| NotificationUtils.bus_id := "b1";
     NotificationUtils.busNumber := "42";
     NotificationUtils.routeName := "Ring";
     NotificationUtils.currentLocation := Spec.origin;
     NotificationUtils.lastUpdated := 0%Z |}.

Definition stop1 : LocationUtils.Stop :=
  {| LocationUtils.stop_id := "s1";
     LocationUtils.stopName := "Depot";
     LocationUtils.location := Spec.origin;
     LocationUtils.address := None |}.

Definition update_at (t : Date) : NotificationUtils.BusUpdate :=
  {| NotificationUtils.busId := "b1";
     NotificationUtils.upd_location := Spec.origin;
     NotificationUtils.timestamp := t |}.

(** A bus that has been moving at 40 km/h and was last seen at the origin
    at time 1000; the collection that holds it. *)
Definition moving_bus : BusRoutes.Bus :=
  {| BusRoutes._id := "b1";
     BusRoutes.busNumber := "42";
     BusRoutes.currentLocation := Spec.origin;
     BusRoutes.status := BusRoutes.active;
     BusRoutes.route := "r1";
     BusRoutes.lastUpdated := Some 1000%Z;
     BusRoutes.speed := 40;
     BusRoutes.tripStats :=
       {| BusRoutes.distanceToday := 12;
          BusRoutes.totalDistance := 340;
          BusRoutes.tripStartTime := Some 0%Z;
          BusRoutes.lastLocation := Some Spec.origin |} |}.

Definition fleet : gmap string BusRoutes.Bus := {[ "b1" := moving_bus ]}.

(** A sample one degree of latitude north of the origin. *)
Definition sample_north (speed : option R) : BusRoutes.LocationBody :=
  {| BusRoutes.body_latitude := 1;
     BusRoutes.body_longitude := 0;
     BusRoutes.body_speed := speed |}.

Definition sample_origin : BusRoutes.LocationBody :=
  {| BusRoutes.body_latitude := 0;
     BusRoutes.body_longitude := 0;
     BusRoutes.body_speed := None |}.

(** A bus as [POST /] creates it, and the collection that holds it. *)
Definition fresh_bus : BusRoutes.Bus :=
  BusRoutes.newBus "b1" "42" "r1" Spec.origin 0%Z.

Definition fresh_fleet : gmap string BusRoutes.Bus := {[ "b1" := fresh_bus ]}.

(** A bus with a recorded location, at the origin, and no trip start
    time. *)
Definition located_bus : BusRoutes.Bus :=
  {| BusRoutes._id := "b1";
     BusRoutes.busNumber := "42";
     BusRoutes.currentLocation := Spec.origin;
     BusRoutes.status := BusRoutes.active;
     BusRoutes.route := "r1";
     BusRoutes.lastUpdated := Some 0%Z;
     BusRoutes.speed := 0;
     BusRoutes.tripStats :=
       {| BusRoutes.distanceToday := 0;
          BusRoutes.totalDistance := 0;
          BusRoutes.tripStartTime := None;
          BusRoutes.lastLocation := Some Spec.origin |} |}.

End Scenario.

(** * Properties *)

(** ** Facts about the modelled [Math] functions *)

Section MathFacts.
Import JS.

Lemma Math_round_eq (z : Z) (x : R) :
  IZR z - / 2 <= x < IZR z + / 2 -> Math_round x = z.
Proof.
  intros [Hlo Hhi]. unfold Math_round. apply Zfloor_eq. lra.
Qed.

Lemma Math_round_IZR (z : Z) : Math_round (IZR z) = z.
Proof. apply Math_round_eq. lra. Qed.

Lemma Math_round_bound (x : R) :
  IZR (Math_round x) - / 2 <= x < IZR (Math_round x) + / 2.
Proof.
  unfold Math_round. pose proof (Zfloor_bound (x + / 2)) as H. lra.
Qed.

Lemma Math_floor_div_pos (a b : Z) :
  (0 < b)%Z -> Math_floor_div a b = (a / b)%Z.
Proof.
  intros Hb. unfold Math_floor_div. apply Zfloor_eq.
  assert (Hb' : 0 < IZR b) by (apply IZR_lt; lia).
  pose proof (Z.mul_div_le a b Hb) as Hle.
  pose proof (Z.mul_succ_div_gt a b Hb) as Hgt.
  apply IZR_le in Hle. apply IZR_lt in Hgt.
  rewrite mult_IZR in Hle. rewrite mult_IZR, succ_IZR in Hgt.
  split.
  - apply Rmult_le_reg_r with (IZR b); [assumption|].
    unfold Rdiv. rewrite Rmult_assoc, Rinv_l by lra. lra.
  - apply Rmult_lt_reg_r with (IZR b); [assumption|].
    unfold Rdiv. rewrite Rmult_assoc, Rinv_l by lra. lra.
Qed.

Lemma Math_atan2_nonneg (y x : R) : 0 <= y -> 0 <= x -> 0 <= Math_atan2 y x.
Proof.
  intros Hy Hx. unfold Math_atan2.
  destruct (Rlt_dec 0 x) as [Hpos|Hnpos].
  - assert (Hq : 0 <= y / x).
    { unfold Rdiv. apply Rmult_le_pos; [assumption|].
      left. now apply Rinv_0_lt_compat. }
    destruct Hq as [Hq|Hq].
    + left. rewrite <- atan_0. now apply atan_increasing.
    + rewrite <- Hq, atan_0. lra.
  - destruct (Rlt_dec x 0) as [Hneg|_]; [lra|].
    destruct (Rlt_dec 0 y) as [_|_].
    + pose proof PI_RGT_0. lra.
    + destruct (Rlt_dec y 0); lra.
Qed.

Lemma Math_atan2_zero (x : R) : 0 < x -> Math_atan2 0 x = 0.
Proof.
  intros Hx. unfold Math_atan2.
  destruct (Rlt_dec 0 x) as [_|Hn]; [|contradiction].
  unfold Rdiv. rewrite Rmult_0_l. apply atan_0.
Qed.

(** The angle of the point [(cos t, sin t)] in the first quadrant. *)
Lemma Math_atan2_sin_cos (t : R) :
  0 <= t < PI / 2 -> Math_atan2 (sin t) (cos t) = t.
Proof.
  intros [Hlo Hhi]. unfold Math_atan2.
  assert (Hc : 0 < cos t) by (apply cos_gt_0; lra).
  destruct (Rlt_dec 0 (cos t)) as [_|Hn]; [|contradiction].
  change (sin t / cos t) with (tan t). apply atan_tan. lra.
Qed.

End MathFacts.

(** ** Geodesy: the haversine distance *)

Section Geodesy.
Import JS LocationUtils.

Lemma haversine_a_sym (p q : Coordinate) : haversine_a p q = haversine_a q p.
Proof.
  unfold haversine_a, toRadians.
  replace ((latitude p - latitude q) * (PI / 180) / 2)
    with (- ((latitude q - latitude p) * (PI / 180) / 2)) by (unfold Rdiv; ring).
  replace ((longitude p - longitude q) * (PI / 180) / 2)
    with (- ((longitude q - longitude p) * (PI / 180) / 2)) by (unfold Rdiv; ring).
  rewrite !sin_neg. ring.
Qed.

Lemma haversine_a_self (p : Coordinate) : haversine_a p p = 0.
Proof.
  unfold haversine_a, toRadians.
  replace ((latitude p - latitude p) * (PI / 180) / 2) with 0 by (unfold Rdiv; ring).
  replace ((longitude p - longitude p) * (PI / 180) / 2) with 0 by (unfold Rdiv; ring).
  rewrite sin_0. ring.
Qed.

Lemma calculateDistance_sym (p q : Coordinate) :
  calculateDistance p q = calculateDistance q p.
Proof. unfold calculateDistance. now rewrite (haversine_a_sym p q). Qed.

Lemma calculateDistance_self (p : Coordinate) : calculateDistance p p = 0.
Proof.
  unfold calculateDistance. rewrite haversine_a_self, sqrt_0.
  replace (1 - 0) with 1 by ring. rewrite sqrt_1, Math_atan2_zero by lra. ring.
Qed.

Lemma calculateDistance_nonneg (p q : Coordinate) : 0 <= calculateDistance p q.
Proof.
  unfold calculateDistance.
  pose proof (Math_atan2_nonneg (sqrt (haversine_a p q))
                (sqrt (1 - haversine_a p q)) (sqrt_pos _) (sqrt_pos _)).
  lra.
Qed.

End Geodesy.

Section GeodesyMeridian.
Import JS LocationUtils Spec.

Lemma PI_gt_3 : 3 < PI.
Proof. pose proof PI2_3_2. lra. Qed.

(** The central angle recovered from the haversine term [sin t * sin t]. *)
Lemma central_angle (t : R) :
  0 <= t < PI / 2 ->
  Math_atan2 (sqrt (sin t * sin t)) (sqrt (1 - sin t * sin t)) = t.
Proof.
  intros Ht.
  assert (Hs : 0 <= sin t) by (apply sin_ge_0; lra).
  assert (Hc : 0 <= cos t) by (apply cos_ge_0; lra).
  replace (1 - sin t * sin t) with (cos t * cos t)
    by (pose proof (sin2_cos2 t) as H2; unfold Rsqr in H2; lra).
  rewrite !sqrt_square by assumption.
  now apply Math_atan2_sin_cos.
Qed.

(** Along the meridian of longitude 0, [deg] degrees north of the origin. *)
Lemma calculateDistance_meridian (deg : R) :
  0 <= deg < 180 ->
  calculateDistance origin (mkCoordinate deg 0) = 6371 * (deg * (PI / 180)).
Proof.
  intros [Hlo Hhi]. pose proof PI_RGT_0 as Hpi.
  unfold calculateDistance, haversine_a, toRadians, origin.
  cbn [latitude longitude].
  set (t := deg * (PI / 180) / 2).
  replace ((deg - 0) * (PI / 180) / 2) with t by (unfold t, Rdiv; ring).
  replace ((0 - 0) * (PI / 180) / 2) with 0 by (unfold Rdiv; ring).
  rewrite sin_0.
  replace (sin t * sin t + _) with (sin t * sin t) by ring.
  rewrite central_angle.
  - unfold t. field.
  - unfold t. split; nra.
Qed.

(** Along the same meridian, [km] kilometres north of the origin. *)
Lemma calculateDistance_north (km : R) :
  0 <= km < 6371 * 3 -> calculateDistance origin (north_of_origin km) = km.
Proof.
  intros [Hlo Hhi]. pose proof PI_gt_3 as Hpi.
  unfold calculateDistance, haversine_a, toRadians, origin, north_of_origin.
  cbn [latitude longitude].
  set (t := km / (2 * 6371)).
  replace ((km * 180 / (6371 * PI) - 0) * (PI / 180) / 2) with t
    by (unfold t; field; lra).
  replace ((0 - 0) * (PI / 180) / 2) with 0 by (unfold Rdiv; ring).
  rewrite sin_0.
  replace (sin t * sin t + _) with (sin t * sin t) by ring.
  rewrite central_angle.
  - unfold t. field.
  - unfold t. split; [|lra].
    apply Rmult_le_pos; [lra|]. left. apply Rinv_0_lt_compat. lra.
Qed.

End GeodesyMeridian.

Section DistanceClaims.
Import JS LocationUtils.

(** C9.  [calculateDistance] is a total function of two coordinates (the
    haversine formula on a sphere of radius 6371 km); it is symmetric, and
    the distance of a point to itself is 0. *)
Theorem calculateDistance_symmetric_zero (a b : Coordinate) :
  calculateDistance a b = calculateDistance b a /\
  calculateDistance a a = 0 /\
  calculateDistance a b =
    6371 * (2 * Math_atan2 (sqrt (haversine_a a b))
                           (sqrt (1 - haversine_a a b))).
Proof.
  split; [apply calculateDistance_sym|].
  split; [apply calculateDistance_self|reflexivity].
Qed.

End DistanceClaims.

Section ETAClaims.
Import JS LocationUtils Spec.

(** The minutes at a speed that is not 0. *)
Lemma calculateETA_finite (cur dest : Coordinate) (avg : option R) :
  default 30 avg <> 0 ->
  eta (calculateETA cur dest avg)
  = Finite (Math_round (calculateDistance cur dest / default 30 avg * 60)).
Proof.
  intros Hv. unfold calculateETA. cbn [eta]. unfold Number_div.
  destruct (Req_dec_T (default 30 avg) 0) as [H0|_]; [contradiction|].
  reflexivity.
Qed.

(** The minutes at the speed 0. *)
Lemma calculateETA_speed_zero (cur dest : Coordinate) (avg : option R) :
  default 30 avg = 0 ->
  eta (calculateETA cur dest avg)
  = if Rlt_dec 0 (calculateDistance cur dest) then PosInfinity else NaN.
Proof.
  intros Hv. unfold calculateETA. cbn [eta]. unfold Number_div.
  pose proof (calculateDistance_nonneg cur dest) as Hd.
  destruct (Req_dec_T (default 30 avg) 0) as [_|H0]; [|contradiction].
  destruct (Rlt_dec 0 (calculateDistance cur dest)) as [Hpos|Hzero].
  - cbn [Number_times Math_round_ext].
    destruct (Rlt_dec 0 60) as [_|H60]; [reflexivity|lra].
  - destruct (Rlt_dec (calculateDistance cur dest) 0); [lra|reflexivity].
Qed.

(** The text follows from the minutes. *)
Lemma etaText_cases (cur dest : Coordinate) (avg : option R) :
  let r := calculateETA cur dest avg in
  (forall m, eta r = Finite m -> (m < 1)%Z -> etaText r = "Arriving now") /\
  (eta r = Finite 1%Z -> etaText r = "1 min") /\
  (forall m, eta r = Finite m -> (1 < m < 60)%Z ->
     etaText r = pretty m +:+ " mins") /\
  (forall m, eta r = Finite m -> (60 <= m)%Z ->
     etaText r = pretty (m / 60)%Z +:+ "h " +:+ pretty (m mod 60)%Z +:+ "m") /\
  (eta r = PosInfinity -> etaText r = "Infinityh NaNm") /\
  (eta r = NaN -> etaText r = "NaNh NaNm").
Proof.
  cbn zeta. unfold calculateETA. cbn [eta etaText].
  set (t := Math_round_ext _). clearbody t.
  repeat split.
  - intros m -> Hm. cbn [Number_ltb]. apply Z.ltb_lt in Hm. now rewrite Hm.
  - intros ->. reflexivity.
  - intros m -> Hm. cbn [Number_ltb Number_eqb Number_toString_ext].
    destruct (Z.ltb_spec m 1); [lia|].
    destruct (Z.eqb_spec m 1); [lia|].
    destruct (Z.ltb_spec m 60); [|lia]. reflexivity.
  - intros m -> Hm.
    cbn [Number_ltb Number_eqb Number_toString_ext Math_floor_div_ext
         Number_rem_ext].
    destruct (Z.ltb_spec m 1); [lia|].
    destruct (Z.eqb_spec m 1); [lia|].
    destruct (Z.ltb_spec m 60); [lia|].
    unfold Number_toString, Number_rem.
    rewrite Math_floor_div_pos by lia.
    rewrite Z.rem_mod_nonneg by lia. reflexivity.
  - intros ->. reflexivity.
  - intros ->. reflexivity.
Qed.

Lemma calculateETA_at_distance (cur dest : Coordinate) (d : R) (m : Z) :
  calculateDistance cur dest = d ->
  IZR m - / 2 <= d / 30 * 60 < IZR m + / 2 ->
  eta (calculateETA cur dest None) = Finite m.
Proof.
  intros Hd Hm. rewrite calculateETA_finite by (cbn [default]; lra).
  cbn [default]. rewrite Hd. f_equal. now apply Math_round_eq.
Qed.

(** C7.  [calculateETA] returns [eta = round (distance / averageSpeed * 60)]
    (the speed being 30 km/h when none is given) and the text that goes
    with it: "Arriving now" below 1, "1 min" at 1, "N mins" below 60 and
    "Hh Mm" from 60 on, with [H = floor (eta / 60)] and [M = eta mod 60].
    This also holds at the speed 0, where the division gives [Infinity]
    for a positive distance, and with it the text "Infinityh NaNm" ([H]
    is [Infinity] and [M] is [NaN]); for the distance 0 at the speed 0 the
    minutes are [NaN], which is in none of the four cases.  At the default
    speed a distance of 7.5 km gives 15 and "15 mins", and a distance of
    0.2 km gives 0 and "Arriving now". *)
Theorem calculateETA_minutes_and_text (cur dest : Coordinate) (avg : option R) :
  let d := calculateDistance cur dest in
  let v := default 30 avg in
  let r := calculateETA cur dest avg in
  eta r = Math_round_ext (Number_times (Number_div d v) 60) /\
  (v <> 0 -> eta r = Finite (Math_round (d / v * 60))) /\
  (v = 0 -> 0 < d -> eta r = PosInfinity) /\
  (v = 0 -> d = 0 -> eta r = NaN) /\
  (forall m, eta r = Finite m -> (m < 1)%Z -> etaText r = "Arriving now") /\
  (eta r = Finite 1%Z -> etaText r = "1 min") /\
  (forall m, eta r = Finite m -> (1 < m < 60)%Z ->
     etaText r = pretty m +:+ " mins") /\
  (forall m, eta r = Finite m -> (60 <= m)%Z ->
     etaText r = pretty (m / 60)%Z +:+ "h " +:+ pretty (m mod 60)%Z +:+ "m") /\
  (eta r = PosInfinity -> etaText r = "Infinityh NaNm") /\
  (eta r = NaN -> etaText r = "NaNh NaNm") /\
  (avg = None -> d = 75 / 10 ->
   eta r = Finite 15%Z /\ etaText r = "15 mins") /\
  (avg = None -> d = 2 / 10 ->
   eta r = Finite 0%Z /\ etaText r = "Arriving now").
Proof.
  cbn zeta.
  destruct (etaText_cases cur dest avg)
    as (Hnow & Hone & Hmins & Hhm & Hinf & Hnan).
  split; [reflexivity|].
  split; [apply calculateETA_finite|].
  split.
  { intros Hv Hd. rewrite calculateETA_speed_zero by assumption.
    destruct (Rlt_dec 0 (calculateDistance cur dest)); [reflexivity|contradiction]. }
  split.
  { intros Hv Hd. rewrite calculateETA_speed_zero by assumption.
    destruct (Rlt_dec 0 (calculateDistance cur dest)); [lra|reflexivity]. }
  repeat (split; [assumption|]).
  split; intros -> Hd.
  - assert (He : eta (calculateETA cur dest None) = Finite 15%Z).
    { apply calculateETA_at_distance with (d := 75 / 10); [assumption|lra]. }
    split; [assumption|]. now rewrite (Hmins 15%Z He) by lia.
  - assert (He : eta (calculateETA cur dest None) = Finite 0%Z).
    { apply calculateETA_at_distance with (d := 2 / 10); [assumption|lra]. }
    split; [assumption|]. apply (Hnow 0%Z He). lia.
Qed.

(** The two scenarios at concrete coordinates: 7.5 km and 0.2 km due
    north of the origin; and one kilometre at the speed 0. *)
Lemma calculateETA_minutes_and_text_witness :
  (eta (calculateETA origin (north_of_origin (75 / 10)) None) = Finite 15%Z /\
   etaText (calculateETA origin (north_of_origin (75 / 10)) None) = "15 mins") /\
  (eta (calculateETA origin (north_of_origin (2 / 10)) None) = Finite 0%Z /\
   etaText (calculateETA origin (north_of_origin (2 / 10)) None)
   = "Arriving now") /\
  eta (calculateETA origin (north_of_origin 1) (Some 0)) = PosInfinity.
Proof.
  split; [|split].
  - apply (calculateETA_minutes_and_text origin (north_of_origin (75 / 10)) None).
    + reflexivity.
    + apply calculateDistance_north. lra.
  - apply (calculateETA_minutes_and_text origin (north_of_origin (2 / 10)) None).
    + reflexivity.
    + apply calculateDistance_north. lra.
  - apply (calculateETA_minutes_and_text origin (north_of_origin 1) (Some 0)).
    + reflexivity.
    + rewrite calculateDistance_north by lra. lra.
Defined.

End ETAClaims.

Section NearestStop.
Import JS LocationUtils Spec.

Variable loc : Coordinate.

Local Abbreviation dist s := (calculateDistance loc (location s)).

(** The loop keeps "the first nearest stop of what has been scanned". *)
Lemma nearest_loop_invariant (rest seen : list Stop) (i : nat) (cur : Stop) :
  first_nearest loc seen i cur ->
  exists i' stop,
    nearest_loop loc rest cur (dist cur) = (stop, dist stop) /\
    first_nearest loc (seen ++ rest) i' stop.
Proof.
  revert seen i cur.
  induction rest as [|s rest IH]; intros seen i cur (Hi & Hmin & Hfirst).
  - exists i, cur. rewrite app_nil_r. now repeat split.
  - cbn [nearest_loop].
    replace (seen ++ s :: rest) with ((seen ++ [s]) ++ rest)
      by now rewrite <- app_assoc.
    destruct (Rlt_dec (dist s) (dist cur)) as [Hlt|Hge].
    + apply (IH (seen ++ [s]) (length seen) s). repeat split.
      * now rewrite lookup_app_r, Nat.sub_diag by lia.
      * intros j x Hj. apply lookup_app_Some in Hj as [Hj|[_ Hj]].
        -- specialize (Hmin j x Hj). lra.
        -- apply list_lookup_singleton_Some in Hj as [_ <-]. lra.
      * intros j x Hlen Hj. rewrite lookup_app_l in Hj by assumption.
        specialize (Hmin j x Hj). lra.
    + apply (IH (seen ++ [s]) i cur). repeat split.
      * apply lookup_app_l_Some. assumption.
      * intros j x Hj. apply lookup_app_Some in Hj as [Hj|[_ Hj]].
        -- now apply (Hmin j x).
        -- apply list_lookup_singleton_Some in Hj as [_ <-]. lra.
      * intros j x Hlt Hj. apply (Hfirst j x Hlt).
        apply lookup_lt_Some in Hi.
        now rewrite lookup_app_l in Hj by lia.
Qed.

End NearestStop.

Section NearestStopClaims.
Import JS LocationUtils.

(** C10.  [findNearestStop] returns [null] for an absent or empty list of
    stops.  For a non-empty list it returns a stop of the list, with the
    distance of that stop (rounded to two decimals) as [distance]; no stop
    of the list is nearer, and every stop before it in the list is
    strictly farther: among the stops at the least distance the first one
    is kept. *)
Theorem findNearestStop_first_nearest (loc : Coordinate) :
  findNearestStop loc None = None /\
  findNearestStop loc (Some []) = None /\
  forall (s0 : Stop) (rest : list Stop),
  exists (i : nat) (stop : Stop),
    findNearestStop loc (Some (s0 :: rest)) =
      Some {| sd_stop := stop;
              sd_distance :=
                IZR (Math_round (calculateDistance loc (location stop) * 100))
                / 100 |} /\
    (s0 :: rest) !! i = Some stop /\
    (forall j s, (s0 :: rest) !! j = Some s ->
       calculateDistance loc (location stop)
       <= calculateDistance loc (location s)) /\
    (forall j s, (j < i)%nat -> (s0 :: rest) !! j = Some s ->
       calculateDistance loc (location stop)
       < calculateDistance loc (location s)).
Proof.
  split; [reflexivity|]. split; [reflexivity|].
  intros s0 rest.
  destruct (nearest_loop_invariant loc rest [s0] 0 s0)
    as (i & stop & Hloop & Hi & Hmin & Hfirst).
  { repeat split.
    - intros j s Hj. apply list_lookup_singleton_Some in Hj as [_ <-]. lra.
    - intros j s Hj. lia. }
  exists i, stop. unfold findNearestStop. rewrite Hloop.
  repeat split; assumption.
Qed.

End NearestStopClaims.

Section ApproachNotification.
Import JS LocationUtils NotificationUtils BusTracking Spec.

(** Both modules compute the same distance. *)
Lemma notification_distance (p q : Coordinate) :
  NotificationUtils.calculateDistance p q = LocationUtils.calculateDistance p q.
Proof. reflexivity. Qed.

Lemma nearest_step_within (u : BusUpdate) (acc : option Nearest) (s : Stop) :
  nearest_within (nearest_step u acc s) = nearest_within acc || within_radius u s.
Proof.
  unfold nearest_step, within_radius. rewrite notification_distance.
  set (d := LocationUtils.calculateDistance _ _).
  destruct acc as [n|]; cbn [nearest_within n_distance]; [|reflexivity].
  destruct (Rlt_dec d (n_distance n)); cbn [nearest_within n_distance];
    destruct (Rle_dec d (5 / 10)), (Rle_dec (n_distance n) (5 / 10));
    try reflexivity; lra.
Qed.

Lemma nearest_fold_within (u : BusUpdate) (stops : list Stop)
    (acc : option Nearest) :
  nearest_within (fold_left (nearest_step u) stops acc)
  = nearest_within acc || existsb (within_radius u) stops.
Proof.
  revert acc. induction stops as [|s stops IH]; intros acc; cbn [fold_left existsb].
  - now rewrite orb_false_r.
  - now rewrite IH, nearest_step_within, orb_assoc.
Qed.

Lemma find_is_tracked (tracked : list Bus) (u : BusUpdate) :
  is_tracked tracked u =
  match find (fun bus => String.eqb (bus_id bus) (busId u)) tracked with
  | Some _ => true
  | None => false
  end.
Proof.
  unfold is_tracked. induction tracked as [|b l IH]; [reflexivity|].
  cbn [existsb find]. destruct (String.eqb (bus_id b) (busId u)); [reflexivity|].
  exact IH.
Qed.

(** One call asks for one notification when the update is [inside], for
    none otherwise. *)
Lemma checkAndNotify_count (tracked : list Bus) (u : BusUpdate)
    (stops : list Stop) :
  length (checkAndNotifyBusUpdates granted tracked u stops)
  = if inside tracked stops u then 1%nat else 0%nat.
Proof.
  unfold inside, checkAndNotifyBusUpdates. rewrite find_is_tracked.
  destruct (find _ tracked) as [bus|]; [|reflexivity].
  rewrite orb_true_l || cbn [andb].
  pose proof (nearest_fold_within u stops None) as Hfold.
  cbn [nearest_within orb] in Hfold. rewrite <- Hfold.
  destruct (fold_left (nearest_step u) stops None) as [n|]; [|reflexivity].
  cbn [nearest_within]. destruct (Rle_dec (n_distance n) (5 / 10)); reflexivity.
Qed.

(** C1 (as the code has it).  [checkAndNotifyBusUpdates] keeps no record
    of the notifications it has asked for: with the permission granted, a
    call asks for one "approaching" notification when the bus of the
    update is in the list of tracked buses that it is given and the
    update is within 0.5 km of some stop of the list of stops that it is
    given, and for none otherwise, whatever the calls before it were.  A
    listener calls it once for every update, with the two lists that the
    listener holds, so that it asks for one notification for every such
    update, also while the bus stays within the radius; a listener that
    holds empty lists asks for none. *)
Theorem approach_notification_per_update (tracked : list Bus)
    (stops : list Stop) (st : PageState) (events : list BusUpdate) :
  (forall u, length (checkAndNotifyBusUpdates granted tracked u stops)
             = if inside tracked stops u then 1%nat else 0%nat) /\
  snd (handle_events granted tracked stops st events)
  = flat_map (fun u => checkAndNotifyBusUpdates granted tracked u stops) events /\
  length (snd (handle_events granted tracked stops st events))
  = length (List.filter (inside tracked stops) events) /\
  snd (handle_events granted [] [] st events) = [].
Proof.
  split; [intros u; apply checkAndNotify_count|].
  assert (Hcalls : forall tr sp st0,
            snd (handle_events granted tr sp st0 events)
            = flat_map (fun u => checkAndNotifyBusUpdates granted tr u sp) events).
  { intros tr sp. induction events as [|u events IH]; intros st0; [reflexivity|].
    cbn [handle_events flat_map]. unfold onBusLocationUpdate.
    specialize (IH {| buses := apply_update u (buses st0);
                      trackedBuses := apply_update u (trackedBuses st0) |}).
    destruct (handle_events granted tr sp _ events) as [st2 fired2].
    cbn [snd] in *. now rewrite IH. }
  split; [apply Hcalls|]. split.
  - rewrite Hcalls. clear Hcalls.
    induction events as [|u events IH]; [reflexivity|].
    cbn [flat_map List.filter]. rewrite length_app, checkAndNotify_count, IH.
    destruct (inside tracked stops u); reflexivity.
  - rewrite Hcalls. clear Hcalls.
    induction events as [|u events IH]; [reflexivity|].
    cbn [flat_map]. rewrite IH. reflexivity.
Qed.

End ApproachNotification.

Section ApproachNotificationScenario.
Import JS LocationUtils NotificationUtils BusTracking Spec Scenario.

(** A tracked bus standing at the only stop: the notification asked for. *)
Lemma checkAndNotify_at_stop (bus : Bus) (stop : Stop) (u : BusUpdate) :
  busId u = bus_id bus ->
  upd_location u = location stop ->
  checkAndNotifyBusUpdates granted [bus] u [stop]
  = showBusArrivalNotification granted bus stop 0 0.
Proof.
  intros Hid Hloc. unfold checkAndNotifyBusUpdates. cbn [find].
  rewrite Hid, String.eqb_refl. cbn [fold_left]. unfold nearest_step.
  rewrite notification_distance, Hloc, calculateDistance_self.
  cbn [n_distance n_stop].
  destruct (Rle_dec 0 (5 / 10)) as [_|Hn]; [|lra].
  replace (0 / 30 * 60) with 0 by lra.
  now rewrite Math_round_IZR.
Qed.

(** C1, refuted as stated.  The bus is at the stop (so within its radius)
    at both updates; the call for the first update asks for the
    notification of the pair (bus b1, stop s1), and the call for the
    second, with the bus still inside the radius, asks for it again. *)
Lemma approach_notification_repeats_inside_radius :
  within_radius (update_at 1000%Z) stop1 = true /\
  within_radius (update_at 2000%Z) stop1 = true /\
  map tag (checkAndNotifyBusUpdates granted [bus1] (update_at 1000%Z) [stop1])
  = ["bus-b1-stop-s1"] /\
  map tag (checkAndNotifyBusUpdates granted [bus1] (update_at 2000%Z) [stop1])
  = ["bus-b1-stop-s1"].
Proof.
  assert (Hin : forall t, within_radius (update_at t) stop1 = true).
  { intros t. unfold within_radius. cbn [update_at upd_location stop1 location].
    rewrite calculateDistance_self.
    destruct (Rle_dec 0 (5 / 10)) as [_|Hn]; [reflexivity|lra]. }
  split; [apply Hin|]. split; [apply Hin|].
  rewrite !checkAndNotify_at_stop by reflexivity.
  split; reflexivity.
Qed.

End ApproachNotificationScenario.

(** ** Trip statistics *)

Section TripStatistics.
Import JS LocationUtils BusRoutes Spec.

(** [server.js] stores no Socket.IO server in the settings. *)
Lemma App_get_io : App.get "io" = None.
Proof. apply lookup_empty. Qed.

(** The handler's inline haversine is [calculateDistance] from the last
    recorded location. *)
Lemma distanceIncrement_last (bus : Bus) (last : Coordinate) (lat lng : R) :
  lastLocation (tripStats bus) = Some last ->
  distanceIncrement bus lat lng
  = Some (calculateDistance last (mkCoordinate lat lng)).
Proof.
  intros Hlast. unfold distanceIncrement. rewrite Hlast. f_equal.
  unfold calculateDistance, haversine_a, toRadians. cbn [latitude longitude].
  replace ((lat - latitude last) * PI / 180)
    with ((lat - latitude last) * (PI / 180)) by (unfold Rdiv; ring).
  replace ((lng - longitude last) * PI / 180)
    with ((lng - longitude last) * (PI / 180)) by (unfold Rdiv; ring).
  replace (latitude last * PI / 180)
    with (latitude last * (PI / 180)) by (unfold Rdiv; ring).
  replace (lat * PI / 180) with (lat * (PI / 180)) by (unfold Rdiv; ring).
  reflexivity.
Qed.

(** With no recorded location the increment is not a number. *)
Lemma distanceIncrement_first (bus : Bus) (lat lng : R) :
  lastLocation (tripStats bus) = None -> distanceIncrement bus lat lng = None.
Proof. intros Hlast. unfold distanceIncrement. now rewrite Hlast. Qed.

Lemma distanceIncrement_nonneg (bus : Bus) (lat lng inc : R) :
  distanceIncrement bus lat lng = Some inc -> 0 <= inc.
Proof.
  destruct (lastLocation (tripStats bus)) as [last|] eqn:Hlast.
  - rewrite (distanceIncrement_last bus last) by assumption.
    intros [= <-]. apply calculateDistance_nonneg.
  - rewrite distanceIncrement_first by assumption. discriminate.
Qed.

(** The document of an update that is accepted. *)
Lemma updatedBus_Some (bus bus' : Bus) (body : LocationBody) (now : Date) :
  updatedBus bus body now = Some bus' ->
  exists inc,
    distanceIncrement bus (body_latitude body) (body_longitude body) = Some inc /\
    0 <= inc /\
    bus' =
    {| _id := _id bus;
       busNumber := busNumber bus;
       currentLocation := mkCoordinate (body_latitude body) (body_longitude body);
       status := status bus;
       route := route bus;
       lastUpdated := Some now;
       speed := calculatedSpeed bus (body_speed body) (Some inc) now;
       tripStats :=
         {| distanceToday := distanceToday (tripStats bus) + inc;
            totalDistance := totalDistance (tripStats bus) + inc;
            tripStartTime := match tripStartTime (tripStats bus) with
                             | Some t => Some t
                             | None => Some now
                             end;
            lastLocation :=
              Some (mkCoordinate (body_latitude body) (body_longitude body)) |} |}.
Proof.
  unfold updatedBus.
  destruct (distanceIncrement bus (body_latitude body) (body_longitude body))
    as [inc|] eqn:Hinc; [|discriminate].
  intros [= <-]. exists inc. split; [reflexivity|].
  split; [exact (distanceIncrement_nonneg _ _ _ _ Hinc)|reflexivity].
Qed.

(** An update is accepted exactly when a location has been recorded. *)
Lemma updatedBus_None (bus : Bus) (body : LocationBody) (now : Date) :
  updatedBus bus body now = None <-> lastLocation (tripStats bus) = None.
Proof.
  unfold updatedBus, distanceIncrement.
  destruct (lastLocation (tripStats bus)); split; intros H;
    first [reflexivity|discriminate].
Qed.

(** The handlers on a bus that exists. *)
Lemma patchLocation_found (db : DB) (id : string) (bus : Bus)
    (body : LocationBody) (now : Date) :
  db !! id = Some bus ->
  patchLocation db id body now =
  match updatedBus bus body now with
  | Some bus' =>
      {| db_after := <[id := bus']> db; emitted := []; response := ServerError |}
  | None =>
      {| db_after := db; emitted := []; response := ServerError |}
  end.
Proof.
  intros Hbus. unfold patchLocation. rewrite Hbus, App_get_io. reflexivity.
Qed.

Lemma resetDistance_found (db : DB) (id : string) (bus : Bus) (now : Date) :
  db !! id = Some bus ->
  resetDistance db id now =
  {| db_after := <[id := resetBus bus now]> db;
     emitted := [];
     response := Ok (resetBus bus now) |}.
Proof. intros Hbus. unfold resetDistance. now rewrite Hbus. Qed.

(** A request changes at most the bus it names. *)
Lemma handle_other (db : DB) (req : Request) (id : string) :
  match req with PatchLocation i _ _ | ResetDistance i _ => i end <> id ->
  db_after (handle db req) !! id = db !! id.
Proof.
  intros Hne. destruct req as [i body now|i now]; cbn [handle].
  - destruct (db !! i) as [bus|] eqn:Hbus.
    + rewrite (patchLocation_found db i bus) by assumption.
      destruct (updatedBus bus body now); cbn [db_after]; [|reflexivity].
      now rewrite lookup_insert_ne.
    + unfold patchLocation. now rewrite Hbus.
  - unfold resetDistance. destruct (db !! i); cbn [db_after]; [|reflexivity].
    now rewrite lookup_insert_ne.
Qed.

Lemma handle_counters_ordered (db : DB) (req : Request) (id : string) :
  counters_ordered db id -> counters_ordered (db_after (handle db req)) id.
Proof.
  intros (bus & Hbus & Hord).
  destruct (decide (match req with
                    | PatchLocation i _ _ | ResetDistance i _ => i
                    end = id)) as [Heq|Hne].
  - destruct req as [i body now|i now]; subst i; cbn [handle].
    + rewrite (patchLocation_found db id bus) by assumption.
      destruct (updatedBus bus body now) as [bus'|] eqn:Hup; cbn [db_after].
      * apply updatedBus_Some in Hup as (inc & _ & Hinc & ->).
        eexists. rewrite lookup_insert_eq. split; [reflexivity|].
        cbn [tripStats distanceToday totalDistance]. lra.
      * now exists bus.
    + rewrite (resetDistance_found db id bus) by assumption. cbn [db_after].
      exists (resetBus bus now). rewrite lookup_insert_eq.
      split; [reflexivity|]. cbn [resetBus tripStats distanceToday totalDistance].
      lra.
  - exists bus. now rewrite handle_other.
Qed.

Lemma handle_all_counters_ordered (reqs : list Request) (db : DB) (id : string) :
  counters_ordered db id -> counters_ordered (handle_all db reqs) id.
Proof.
  revert db. induction reqs as [|req reqs IH]; intros db Hinv; [assumption|].
  unfold handle_all. cbn [fold_left]. apply IH.
  now apply handle_counters_ordered.
Qed.

(** C5.  A bus whose two counters start at 0 has
    [distanceToday <= totalDistance] after any sequence of location updates
    and daily resets, in any order and for any buses, and the bus is still
    in the collection. *)
Theorem distanceToday_le_totalDistance (db : DB) (id : string) (bus : Bus)
    (reqs : list Request) :
  db !! id = Some bus ->
  distanceToday (tripStats bus) = 0 ->
  totalDistance (tripStats bus) = 0 ->
  exists bus',
    handle_all db reqs !! id = Some bus' /\
    distanceToday (tripStats bus') <= totalDistance (tripStats bus').
Proof.
  intros Hbus Htoday Htotal.
  destruct (handle_all_counters_ordered reqs db id) as (bus' & Hbus' & Hord).
  { exists bus. split; [assumption|]. lra. }
  exists bus'. split; [assumption|]. lra.
Qed.

End TripStatistics.

Section TripStatisticsClaims.
Import JS LocationUtils BusRoutes Spec Scenario.

(** Updates, a reset and another update of a bus with a recorded
    location and both counters at 0. *)
Lemma distanceToday_le_totalDistance_witness :
  exists bus',
    handle_all {[ "b1" := located_bus ]}
      [PatchLocation "b1" sample_origin 1000%Z;
       PatchLocation "b1" (sample_north None) 2000%Z;
       ResetDistance "b1" 3000%Z;
       PatchLocation "b1" sample_origin 4000%Z] !! "b1" = Some bus' /\
    distanceToday (tripStats bus') <= totalDistance (tripStats bus').
Proof.
  apply (distanceToday_le_totalDistance {[ "b1" := located_bus ]} "b1"
           located_bus).
  - apply lookup_singleton_eq.
  - reflexivity.
  - reflexivity.
Defined.

(** C6.  The daily reset of a bus sets [distanceToday] to 0 and
    [tripStartTime] to the time of the reset; [totalDistance],
    [lastLocation] and all other fields of the bus keep their values, no
    other bus changes and nothing is emitted. *)
Theorem resetDistance_frame (db : DB) (id : string) (bus : Bus) (now : Date) :
  db !! id = Some bus ->
  exists bus',
    response (resetDistance db id now) = Ok bus' /\
    db_after (resetDistance db id now) !! id = Some bus' /\
    distanceToday (tripStats bus') = 0 /\
    tripStartTime (tripStats bus') = Some now /\
    totalDistance (tripStats bus') = totalDistance (tripStats bus) /\
    lastLocation (tripStats bus') = lastLocation (tripStats bus) /\
    _id bus' = _id bus /\
    busNumber bus' = busNumber bus /\
    currentLocation bus' = currentLocation bus /\
    status bus' = status bus /\
    route bus' = route bus /\
    lastUpdated bus' = lastUpdated bus /\
    speed bus' = speed bus /\
    (forall other, other <> id ->
       db_after (resetDistance db id now) !! other = db !! other) /\
    emitted (resetDistance db id now) = [].
Proof.
  intros Hbus. exists (resetBus bus now).
  rewrite (resetDistance_found db id bus) by assumption.
  cbn [response db_after emitted]. rewrite lookup_insert_eq.
  repeat (split; [reflexivity|]).
  split; [|reflexivity].
  intros other Hne. now rewrite lookup_insert_ne.
Qed.

Lemma resetDistance_frame_witness :
  exists bus',
    response (resetDistance fleet "b1" 5000%Z) = Ok bus' /\
    db_after (resetDistance fleet "b1" 5000%Z) !! "b1" = Some bus' /\
    distanceToday (tripStats bus') = 0 /\
    tripStartTime (tripStats bus') = Some 5000%Z /\
    totalDistance (tripStats bus') = totalDistance (tripStats moving_bus) /\
    lastLocation (tripStats bus') = lastLocation (tripStats moving_bus) /\
    _id bus' = _id moving_bus /\
    busNumber bus' = busNumber moving_bus /\
    currentLocation bus' = currentLocation moving_bus /\
    status bus' = status moving_bus /\
    route bus' = route moving_bus /\
    lastUpdated bus' = lastUpdated moving_bus /\
    speed bus' = speed moving_bus /\
    (forall other, other <> "b1" ->
       db_after (resetDistance fleet "b1" 5000%Z) !! other = fleet !! other) /\
    emitted (resetDistance fleet "b1" 5000%Z) = [].
Proof.
  apply (resetDistance_frame fleet "b1" moving_bus 5000%Z).
  apply lookup_singleton_eq.
Defined.

(** The samples of one bus, folded over the bus itself: a sample that is
    refused leaves the bus as it is. *)
Lemma handle_all_samples (samples : list Sample) (db : DB) (id : string)
    (bus : Bus) :
  db !! id = Some bus ->
  handle_all db (map (sample_request id) samples) !! id
  = Some (fold_left (fun b s => default b (updatedBus b (fst s) (snd s)))
            samples bus).
Proof.
  revert db bus. induction samples as [|s samples IH]; intros db bus Hbus.
  - assumption.
  - cbn [map]. unfold handle_all. cbn [fold_left sample_request handle].
    rewrite (patchLocation_found db id bus) by assumption.
    destruct (updatedBus bus (fst s) (snd s)) as [bus'|]; cbn [db_after default].
    + apply IH. apply lookup_insert_eq.
    + now apply IH.
Qed.

(** A bus with no recorded location: every sample is refused. *)
Lemma samples_refused (samples : list Sample) (db : DB) (id : string)
    (bus : Bus) :
  db !! id = Some bus ->
  lastLocation (tripStats bus) = None ->
  handle_all db (map (sample_request id) samples) = db.
Proof.
  intros Hbus Hlast. induction samples as [|s samples IH]; [reflexivity|].
  cbn [map]. unfold handle_all. cbn [fold_left sample_request handle].
  rewrite (patchLocation_found db id bus) by assumption.
  replace (updatedBus bus (fst s) (snd s)) with (@None Bus)
    by (symmetry; now apply updatedBus_None).
  cbn [db_after]. exact IH.
Qed.

(** A bus with a recorded location: every sample adds the distance from
    the location recorded before it. *)
Lemma samples_total (samples : list Sample) (bus : Bus) (c : Coordinate) :
  lastLocation (tripStats bus) = Some c ->
  let bus' := fold_left (fun b s => default b (updatedBus b (fst s) (snd s)))
                samples bus in
  totalDistance (tripStats bus')
  = totalDistance (tripStats bus)
    + path_length (c :: map sample_coordinate samples) /\
  lastLocation (tripStats bus')
  = last (c :: map sample_coordinate samples).
Proof.
  cbn zeta. revert bus c.
  induction samples as [|s samples IH]; intros bus c Hc.
  - cbn [fold_left map last path_length]. split; [lra|assumption].
  - cbn [fold_left].
    destruct (updatedBus bus (fst s) (snd s)) as [bus1|] eqn:Hup;
      [|apply updatedBus_None in Hup; congruence].
    apply updatedBus_Some in Hup as (inc & Hinc & _ & Hbus1).
    rewrite (distanceIncrement_last bus c) in Hinc by assumption.
    injection Hinc as <-. change (default bus (Some bus1)) with bus1.
    destruct (IH bus1 (sample_coordinate s)) as [Htot Hlast].
    { rewrite Hbus1. reflexivity. }
    rewrite Htot, Hlast. rewrite Hbus1 at 1.
    cbn [tripStats totalDistance map path_length].
    fold (sample_coordinate s). split; [lra|].
    now destruct (map sample_coordinate samples).
Qed.

(** C4, at the failing input.  A bus starts with an empty trip state, as
    [POST /] creates it, and gets two samples, the second one degree of
    latitude north of the first.  Both requests are answered 500 and
    change nothing: the total distance stays 0 and no location is
    recorded, while the path of the two samples is [6371 * PI / 180] km
    long (about 111).  The same holds for every bus with no recorded
    location and every sequence of samples.  For a bus with a recorded
    location the total distance grows by the length of the path from that
    location through the samples, each increment measured from the sample
    just before. *)
Theorem totalDistance_stays_zero_from_empty :
  (exists bus',
     handle_all fresh_fleet
       (map (sample_request "b1")
          [(sample_origin, 1000%Z); (sample_north None, 2000%Z)]) !! "b1"
     = Some bus' /\
     totalDistance (tripStats bus') = 0 /\
     lastLocation (tripStats bus') = None /\
     path_length (map sample_coordinate
                    [(sample_origin, 1000%Z); (sample_north None, 2000%Z)])
     = 6371 * (PI / 180) /\
     totalDistance (tripStats bus')
     <> path_length (map sample_coordinate
                       [(sample_origin, 1000%Z); (sample_north None, 2000%Z)])) /\
  response (patchLocation fresh_fleet "b1" sample_origin 1000%Z) = ServerError /\
  (forall (db : DB) (id : string) (bus : Bus) (samples : list Sample),
     db !! id = Some bus ->
     lastLocation (tripStats bus) = None ->
     handle_all db (map (sample_request id) samples) = db) /\
  (forall (db : DB) (id : string) (bus : Bus) (c : Coordinate)
          (samples : list Sample),
     db !! id = Some bus ->
     lastLocation (tripStats bus) = Some c ->
     exists bus',
       handle_all db (map (sample_request id) samples) !! id = Some bus' /\
       totalDistance (tripStats bus')
       = totalDistance (tripStats bus)
         + path_length (c :: map sample_coordinate samples) /\
       lastLocation (tripStats bus')
       = last (c :: map sample_coordinate samples)).
Proof.
  assert (Hfresh : fresh_fleet !! "b1" = Some fresh_bus)
    by apply lookup_singleton_eq.
  assert (Hpath : path_length (map sample_coordinate
                    [(sample_origin, 1000%Z); (sample_north None, 2000%Z)])
                  = 6371 * (PI / 180)).
  { cbn [map path_length]. unfold sample_coordinate.
    cbn [fst sample_origin sample_north body_latitude body_longitude].
    rewrite calculateDistance_meridian by lra. ring. }
  split; [|split; [|split]].
  - exists fresh_bus.
    rewrite (samples_refused _ fresh_fleet "b1" fresh_bus) by easy.
    split; [assumption|]. split; [reflexivity|]. split; [reflexivity|].
    split; [assumption|]. rewrite Hpath.
    cbn [fresh_bus newBus tripStats totalDistance]. pose proof PI_RGT_0. lra.
  - rewrite (patchLocation_found fresh_fleet "b1" fresh_bus) by assumption.
    reflexivity.
  - intros db id bus samples Hbus Hlast. now apply (samples_refused _ db id bus).
  - intros db id bus c samples Hbus Hlast.
    eexists. split; [exact (handle_all_samples samples db id bus Hbus)|].
    now apply samples_total.
Qed.

End TripStatisticsClaims.

(** ** Speed *)

Section Speed.
Import JS LocationUtils BusRoutes Spec Scenario.


(** The speed derived from distance and time. *)
Lemma calculatedSpeed_derived (bus : Bus) (speed : option R) (inc : R)
    (now last : Date) :
  not_number speed = true ->
  0 < inc ->
  lastUpdated bus = Some last ->
  0 < IZR (now - last) / (1000 * 60 * 60) ->
  calculatedSpeed bus speed (Some inc) now
  = inc / (IZR (now - last) / (1000 * 60 * 60)).
Proof.
  intros Hnot Hinc Hlast Hpos. unfold calculatedSpeed. rewrite Hnot, Hlast.
  destruct (Rlt_dec 0 inc); [|contradiction].
  destruct (Rlt_dec 0 _); [reflexivity|contradiction].
Qed.

(** A speed other than 0 in the request is stored as it is. *)
Lemma calculatedSpeed_explicit (bus : Bus) (v : R) (inc : option R)
    (now : Date) :
  v <> 0 -> calculatedSpeed bus (Some v) inc now = v.
Proof.
  intros Hv. unfold calculatedSpeed, not_number, or_zero, truthy.
  destruct (Req_dec_T v 0); [contradiction|reflexivity].
Qed.

(** One degree of latitude north of the last location of [moving_bus]. *)
Lemma moving_bus_increment :
  distanceIncrement moving_bus 1 0 = Some (6371 * (PI / 180)).
Proof.
  rewrite (distanceIncrement_last moving_bus origin) by reflexivity.
  rewrite calculateDistance_meridian by lra. f_equal. ring.
Qed.

(** The document stored by an update of a bus with a recorded location. *)
Lemma patchLocation_stored (db : DB) (id : string) (bus : Bus)
    (body : LocationBody) (now : Date) (inc : R) :
  db !! id = Some bus ->
  distanceIncrement bus (body_latitude body) (body_longitude body) = Some inc ->
  exists stored,
    updatedBus bus body now = Some stored /\
    patchLocation db id body now
    = {| db_after := <[id := stored]> db;
         emitted := [];
         response := ServerError |} /\
    speed stored = calculatedSpeed bus (body_speed body) (Some inc) now /\
    totalDistance (tripStats stored) = totalDistance (tripStats bus) + inc /\
    distanceToday (tripStats stored) = distanceToday (tripStats bus) + inc.
Proof.
  intros Hbus Hinc. rewrite (patchLocation_found db id bus) by assumption.
  unfold updatedBus. rewrite Hinc. eexists. split; [reflexivity|].
  repeat split.
Qed.





End Speed.

(** ** Rooms *)

Section RoomClaims.
Import Server.

Lemma socket_join_twice (rooms : Rooms) (room socket : string) :
  socket_join (socket_join rooms room socket) room socket
  = socket_join rooms room socket.
Proof.
  unfold socket_join, subscribers at 1. rewrite lookup_insert_eq. cbn [default].
  rewrite insert_insert_eq. f_equal. set_solver.
Qed.

Lemma subscribers_join (rooms : Rooms) (room socket : string) :
  subscribers (socket_join rooms room socket) room
  = {[socket]} ∪ subscribers rooms room.
Proof. unfold socket_join, subscribers at 1. now rewrite lookup_insert_eq. Qed.

Lemma subscribers_leave (rooms : Rooms) (room socket : string) :
  subscribers (socket_leave rooms room socket) room
  = subscribers rooms room ∖ {[socket]}.
Proof.
  unfold socket_leave, subscribers.
  destruct (rooms !! room) as [members|] eqn:Hroom.
  - now rewrite lookup_insert_eq.
  - rewrite Hroom. cbn [default]. set_solver.
Qed.

Lemma subscribers_leave_all (rooms : Rooms) (room socket : string) :
  subscribers (socket_leave_all rooms socket) room
  = subscribers rooms room ∖ {[socket]}.
Proof.
  unfold socket_leave_all, subscribers. rewrite lookup_fmap.
  destruct (rooms !! room); cbn [fmap option_fmap option_map default];
    [reflexivity|set_solver].
Qed.

(** C8.  Joining the room of a bus twice gives the rooms that joining once
    gives, and so the same subscribers of the bus; leaving the room of a
    bus without being in it leaves its subscribers as they were; after a
    disconnection the socket is in no room, and the other sockets are in
    the rooms they were in. *)
Theorem rooms_idempotent (rooms : Rooms) (busId socket : string) :
  on_event (on_event rooms socket (JoinBusTracking busId)) socket
           (JoinBusTracking busId)
  = on_event rooms socket (JoinBusTracking busId) /\
  subscribers (on_event rooms socket (JoinBusTracking busId)) (room_of busId)
  = {[socket]} ∪ subscribers rooms (room_of busId) /\
  (socket ∉ subscribers rooms (room_of busId) ->
   subscribers (on_event rooms socket (LeaveBusTracking busId)) (room_of busId)
   = subscribers rooms (room_of busId)) /\
  (forall room, socket ∉ subscribers (on_event rooms socket Disconnect) room) /\
  (forall room other, other <> socket ->
     other ∈ subscribers (on_event rooms socket Disconnect) room <->
     other ∈ subscribers rooms room).
Proof.
  cbn [on_event]. split; [apply socket_join_twice|].
  split; [apply subscribers_join|].
  split; [|split].
  - intros Hnot. rewrite subscribers_leave. set_solver.
  - intros room. rewrite subscribers_leave_all. set_solver.
  - intros room other Hne. rewrite subscribers_leave_all. set_solver.
Qed.

(** A socket that leaves a room it never joined, with another socket in
    that room. *)
Lemma rooms_idempotent_witness :
  subscribers (on_event {[ room_of "b1" := {[ "socket-2" ]} ]} "socket-1"
                 (LeaveBusTracking "b1")) (room_of "b1")
  = subscribers {[ room_of "b1" := {[ "socket-2" ]} ]} (room_of "b1").
Proof.
  apply (rooms_idempotent {[ room_of "b1" := {[ "socket-2" ]} ]} "b1" "socket-1").
  unfold subscribers. rewrite lookup_singleton_eq. cbn [default].
  apply not_elem_of_singleton. discriminate.
Defined.

End RoomClaims.

(** * Further properties of the code *)

(** ** More facts about the modelled [Math] functions *)

Section MoreMathFacts.
Import JS.

Lemma Math_atan2_quadrant (y x : R) :
  0 <= y -> 0 <= x -> Math_atan2 y x <= PI / 2.
Proof.
  intros Hy Hx. unfold Math_atan2. pose proof PI_RGT_0 as Hpi.
  destruct (Rlt_dec 0 x) as [Hpos|_].
  - pose proof (atan_bound (y / x)). lra.
  - destruct (Rlt_dec x 0); [lra|].
    destruct (Rlt_dec 0 y); [lra|]. destruct (Rlt_dec y 0); lra.
Qed.

Lemma atan_nonpos (q : R) : q <= 0 -> atan q <= 0.
Proof.
  intros [Hq|Hq].
  - left. rewrite <- atan_0. now apply atan_increasing.
  - rewrite Hq, atan_0. lra.
Qed.

Lemma atan_pos (q : R) : 0 < q -> 0 < atan q.
Proof. intros Hq. rewrite <- atan_0. now apply atan_increasing. Qed.

Lemma Math_atan2_range (y x : R) : - PI < Math_atan2 y x <= PI.
Proof.
  unfold Math_atan2. pose proof PI_RGT_0 as Hpi.
  destruct (Rlt_dec 0 x) as [Hpos|_].
  - pose proof (atan_bound (y / x)). lra.
  - destruct (Rlt_dec x 0) as [Hneg|_].
    + pose proof (atan_bound (y / x)) as Hb.
      assert (Hinv : / x < 0) by now apply Rinv_lt_0_compat.
      destruct (Rle_dec 0 y) as [Hy|Hy].
      * assert (Hq : y / x <= 0) by (unfold Rdiv; nra).
        pose proof (atan_nonpos _ Hq). lra.
      * assert (Hq : 0 < y / x) by (unfold Rdiv; nra).
        pose proof (atan_pos _ Hq). lra.
    + destruct (Rlt_dec 0 y); [lra|]. destruct (Rlt_dec y 0); lra.
Qed.

Lemma Math_atan2_north (x : R) : 0 < x -> Math_atan2 0 x = 0.
Proof. apply Math_atan2_zero. Qed.

Lemma Math_atan2_east (y : R) : 0 < y -> Math_atan2 y 0 = PI / 2.
Proof.
  intros Hy. unfold Math_atan2.
  destruct (Rlt_dec 0 0) as [H|_]; [lra|].
  destruct (Rlt_dec 0 y); [reflexivity|contradiction].
Qed.

(** The remainder of a non-negative number by a positive one. *)
Lemma Number_mod_range (x m : R) :
  0 <= x -> 0 < m -> 0 <= Number_mod x m < m.
Proof.
  intros Hx Hm. unfold Number_mod, truncate.
  assert (Hq : 0 <= x / m).
  { unfold Rdiv. apply Rmult_le_pos; [assumption|].
    left. now apply Rinv_0_lt_compat. }
  destruct (Rle_dec 0 (x / m)) as [_|Hn]; [|contradiction].
  pose proof (Zfloor_bound (x / m)) as [Hlo Hhi].
  assert (Hxm : x = m * (x / m)) by (field; lra).
  split; nra.
Qed.

(** A number below the divisor is its own remainder. *)
Lemma Number_mod_small (x m : R) : 0 <= x < m -> Number_mod x m = x.
Proof.
  intros [Hlo Hhi]. unfold Number_mod, truncate.
  assert (Hm : 0 < m) by lra.
  assert (Hq : 0 <= x / m < 1).
  { split.
    - unfold Rdiv. apply Rmult_le_pos; [assumption|].
      left. now apply Rinv_0_lt_compat.
    - apply Rmult_lt_reg_r with m; [assumption|].
      unfold Rdiv. rewrite Rmult_assoc, Rinv_l by lra. lra. }
  destruct (Rle_dec 0 (x / m)) as [_|Hn]; [|lra].
  rewrite (Zfloor_eq 0 (x / m)) by lra. lra.
Qed.

(** One turn more leaves the remainder unchanged. *)
Lemma Number_mod_turn (x m : R) : 0 <= x < m -> Number_mod (x + m) m = x.
Proof.
  intros [Hlo Hhi]. unfold Number_mod, truncate.
  assert (Hm : 0 < m) by lra.
  assert (Hq : 1 <= (x + m) / m < 2).
  { replace ((x + m) / m) with (x / m + 1) by (field; lra).
    assert (0 <= x / m < 1); [|lra]. split.
    - unfold Rdiv. apply Rmult_le_pos; [assumption|].
      left. now apply Rinv_0_lt_compat.
    - apply Rmult_lt_reg_r with m; [assumption|].
      unfold Rdiv. rewrite Rmult_assoc, Rinv_l by lra. lra. }
  destruct (Rle_dec 0 ((x + m) / m)) as [_|Hn]; [|lra].
  rewrite (Zfloor_eq 1 ((x + m) / m)) by lra. lra.
Qed.

Lemma Math_round_nonneg (x : R) : 0 <= x -> (0 <= Math_round x)%Z.
Proof.
  intros Hx. unfold Math_round. apply Zfloor_lub. lra.
Qed.

Lemma Math_round_le (x y : R) : x <= y -> (Math_round x <= Math_round y)%Z.
Proof. intros Hxy. unfold Math_round. apply Zfloor_le. lra. Qed.

End MoreMathFacts.

(** ** Distances, radius and approach *)

Section DistanceBounds.
Import JS LocationUtils Spec.

Lemma calculateDistance_upper (a b : Coordinate) :
  calculateDistance a b <= 6371 * PI.
Proof.
  unfold calculateDistance.
  pose proof (Math_atan2_quadrant (sqrt (haversine_a a b))
                (sqrt (1 - haversine_a a b)) (sqrt_pos _) (sqrt_pos _)).
  lra.
Qed.

(** X1.  No two points are farther apart than half the circumference of
    the sphere: [0 <= calculateDistance a b <= 6371 * PI]. *)
Theorem calculateDistance_bounded (a b : Coordinate) :
  0 <= calculateDistance a b <= 6371 * PI.
Proof.
  split; [apply calculateDistance_nonneg|apply calculateDistance_upper].
Qed.

(** X2.  [isWithinRadius] does not depend on the order of the two points;
    a point is within every non-negative radius of itself; nothing is
    within a negative radius, and everything is within a radius of half
    the circumference. *)
Theorem isWithinRadius_facts (p q : Coordinate) (r : R) :
  isWithinRadius p q r = isWithinRadius q p r /\
  isWithinRadius p p r = (if Rle_dec 0 r then true else false) /\
  (r < 0 -> isWithinRadius p q r = false) /\
  (6371 * PI <= r -> isWithinRadius p q r = true).
Proof.
  unfold isWithinRadius. rewrite (calculateDistance_sym q p).
  rewrite calculateDistance_self.
  pose proof (calculateDistance_nonneg p q) as Hlo.
  pose proof (calculateDistance_upper p q) as Hhi.
  split; [reflexivity|]. split; [reflexivity|]. split; intros Hr.
  - destruct (Rle_dec (calculateDistance p q) r); [lra|reflexivity].
  - destruct (Rle_dec (calculateDistance p q) r); [reflexivity|lra].
Qed.

Lemma isWithinRadius_facts_witness :
  isWithinRadius origin (north_of_origin 1) (-1) = false /\
  isWithinRadius origin (north_of_origin 1) 30000 = true.
Proof.
  split.
  - apply (isWithinRadius_facts origin (north_of_origin 1) (-1)). lra.
  - apply (isWithinRadius_facts origin (north_of_origin 1) 30000).
    pose proof PI_4. lra.
Defined.

(** The scan of [checkBusApproachingStop], after the stops [seen] that
    were all farther than the radius. *)
Lemma approach_loop_first (loc : Coordinate) (r : R) (stops seen : list Stop) :
  (forall s, s ∈ seen -> r < calculateDistance loc (location s)) ->
  match approach_loop loc stops r with
  | Some a =>
      exists i, (seen ++ stops) !! i = Some (ap_stop a) /\
        ap_distance a = calculateDistance loc (location (ap_stop a)) /\
        ap_distance a <= r /\
        isApproaching a = true /\
        forall j s, (j < i)%nat -> (seen ++ stops) !! j = Some s ->
                    r < calculateDistance loc (location s)
  | None => forall s, s ∈ seen ++ stops -> r < calculateDistance loc (location s)
  end.
Proof.
  revert seen. induction stops as [|stop stops IH]; intros seen Hseen.
  - cbn [approach_loop]. now rewrite app_nil_r.
  - cbn [approach_loop].
    destruct (Rle_dec (calculateDistance loc (location stop)) r) as [Hin|Hout].
    + exists (length seen). cbn [ap_stop ap_distance isApproaching].
      rewrite lookup_app_r, Nat.sub_diag by lia.
      repeat split; try assumption.
      intros j s Hj Hs. rewrite lookup_app_l in Hs by assumption.
      apply Hseen. now apply list_elem_of_lookup_2 in Hs.
    + specialize (IH (seen ++ [stop])).
      rewrite <- app_assoc in IH. apply IH.
      intros s Hs. apply elem_of_app in Hs as [Hs|Hs]; [now apply Hseen|].
      apply list_elem_of_singleton in Hs as ->. lra.
Qed.

(** X3.  [checkBusApproachingStop] returns the first stop of the list, in
    the order of the list, that is within the radius (0.5 km when none is
    given), with its distance and [isApproaching] set, whether or not a
    later stop is nearer; it returns [null] exactly when the list is absent
    or every stop is farther than the radius. *)
Theorem checkBusApproachingStop_first_within (loc : Coordinate)
    (stops : list Stop) (radius : option R) :
  let r := default (5 / 10) radius in
  checkBusApproachingStop loc None radius = None /\
  match checkBusApproachingStop loc (Some stops) radius with
  | Some a =>
      exists i, stops !! i = Some (ap_stop a) /\
        ap_distance a = calculateDistance loc (location (ap_stop a)) /\
        ap_distance a <= r /\
        isApproaching a = true /\
        forall j s, (j < i)%nat -> stops !! j = Some s ->
                    r < calculateDistance loc (location s)
  | None => forall s, s ∈ stops -> r < calculateDistance loc (location s)
  end.
Proof.
  cbn zeta. split; [reflexivity|].
  pose proof (approach_loop_first loc (default (5 / 10) radius) stops []) as H.
  cbn [app] in H. unfold checkBusApproachingStop.
  destruct stops as [|s stops].
  - intros x Hx. now apply elem_of_nil in Hx.
  - apply H. intros x Hx. now apply elem_of_nil in Hx.
Qed.

End DistanceBounds.

(** ** Bearing and direction *)

Section Bearing.
Import JS LocationUtils Spec.

Lemma toDegrees_range (r : R) : - PI < r <= PI -> -180 < toDegrees r <= 180.
Proof.
  intros [Hlo Hhi]. pose proof PI_RGT_0 as Hpi. unfold toDegrees.
  assert (Hk : r * (180 / PI) * PI = r * 180) by (field; lra).
  split; nra.
Qed.

Lemma calculateBearing_in_range (p q : Coordinate) :
  0 <= calculateBearing p q < 360.
Proof.
  unfold calculateBearing.
  set (y := sin _ * cos _). set (x := _ - _).
  pose proof (toDegrees_range _ (Math_atan2_range y x)) as Hd.
  apply Number_mod_range; lra.
Qed.

(** X4.  The bearing from one point to another is a number of degrees in
    [[0, 360)]. *)
Theorem calculateBearing_range (p q : Coordinate) :
  0 <= calculateBearing p q < 360.
Proof. apply calculateBearing_in_range. Qed.

(** The index computed for a bearing in [[0, 360)]. *)
Lemma direction_index (b : R) :
  0 <= b < 360 -> (0 <= Math_round (b / 45) <= 8)%Z.
Proof.
  intros [Hlo Hhi]. pose proof (Math_round_bound (b / 45)) as [Hl Hh].
  split.
  - apply Math_round_nonneg. lra.
  - assert (Hlt : IZR (Math_round (b / 45)) < IZR 9) by lra.
    apply lt_IZR in Hlt. lia.
Qed.

Lemma getDirectionFromBearing_defined (b : R) :
  0 <= b < 360 ->
  exists name, getDirectionFromBearing b = Some name /\ name ∈ directions.
Proof.
  intros Hb. pose proof (direction_index b Hb) as Hn.
  unfold getDirectionFromBearing. set (n := Math_round (b / 45)) in *.
  clearbody n.
  assert (Hcases : (n = 0 \/ n = 1 \/ n = 2 \/ n = 3 \/ n = 4 \/ n = 5 \/
                    n = 6 \/ n = 7 \/ n = 8)%Z) by lia.
  destruct Hcases as [->|[->|[->|[->|[->|[->|[->|[->| ->]]]]]]]];
    eexists; (split; [reflexivity|]); unfold directions; set_solver.
Qed.

(** X5.  The direction of the bearing between any two points is always
    one of the eight names: the index into [directions] is never out of
    range. *)
Theorem direction_of_bearing_defined (p q : Coordinate) :
  exists name,
    getDirectionFromBearing (calculateBearing p q) = Some name /\
    name ∈ directions.
Proof. apply getDirectionFromBearing_defined, calculateBearing_in_range. Qed.

Lemma direction_sector (b : R) (k : Z) :
  (0 <= k <= 8)%Z ->
  IZR k * 45 - 225 / 10 <= b < IZR k * 45 + 225 / 10 ->
  getDirectionFromBearing b = directions !! Z.to_nat (k mod 8).
Proof.
  intros Hk [Hlo Hhi]. unfold getDirectionFromBearing.
  rewrite (Math_round_eq k) by lra.
  assert (Hcases : (k = 0 \/ k = 1 \/ k = 2 \/ k = 3 \/ k = 4 \/ k = 5 \/
                    k = 6 \/ k = 7 \/ k = 8)%Z) by lia.
  destruct Hcases as [->|[->|[->|[->|[->|[->|[->|[->| ->]]]]]]]]; reflexivity.
Qed.

(** X6.  A bearing within 22.5 degrees of [k * 45], for [k] from 0 to 8,
    is given the [k]-th name, the eighth sector being "North" again. *)
Theorem getDirectionFromBearing_sector (b : R) (k : Z) :
  (0 <= k <= 8)%Z ->
  IZR k * 45 - 225 / 10 <= b < IZR k * 45 + 225 / 10 ->
  getDirectionFromBearing b = directions !! Z.to_nat (k mod 8).
Proof. apply direction_sector. Qed.

Lemma getDirectionFromBearing_sector_witness :
  getDirectionFromBearing 350 = Some "North" /\
  getDirectionFromBearing 100 = Some "East".
Proof.
  split.
  - apply (getDirectionFromBearing_sector 350 8); [lia|lra].
  - apply (getDirectionFromBearing_sector 100 2); [lia|lra].
Defined.

(** X7.  A bearing from -180 up to (but not including) -22.5 degrees has no
    direction: the index is negative and the result is [undefined]. *)
Theorem getDirectionFromBearing_negative (b : R) :
  -180 <= b < - (225 / 10) -> getDirectionFromBearing b = None.
Proof.
  intros [Hlo Hhi]. unfold getDirectionFromBearing.
  pose proof (Math_round_bound (b / 45)) as [Hl Hh].
  set (n := Math_round (b / 45)) in *.
  assert (H1 : IZR n < IZR 0) by lra. apply lt_IZR in H1.
  assert (H2 : IZR (-5) < IZR n) by lra. apply lt_IZR in H2.
  clearbody n.
  assert (Hcases : (n = -4 \/ n = -3 \/ n = -2 \/ n = -1)%Z) by lia.
  destruct Hcases as [->|[->|[->| ->]]]; reflexivity.
Qed.

Lemma getDirectionFromBearing_negative_witness :
  getDirectionFromBearing (-90) = None.
Proof. apply getDirectionFromBearing_negative. lra. Defined.

(** X8.  From the origin, a point up to 180 degrees further north on the
    same meridian lies at bearing 0, "North", and a point up to 180
    degrees further east on the equator at bearing 90, "East". *)
Theorem calculateBearing_north_east (deg : R) :
  0 < deg < 180 ->
  calculateBearing origin (mkCoordinate deg 0) = 0 /\
  getDirectionFromBearing (calculateBearing origin (mkCoordinate deg 0))
  = Some "North" /\
  calculateBearing origin (mkCoordinate 0 deg) = 90 /\
  getDirectionFromBearing (calculateBearing origin (mkCoordinate 0 deg))
  = Some "East".
Proof.
  intros [Hlo Hhi]. pose proof PI_RGT_0 as Hpi.
  assert (Hrad : 0 < deg * (PI / 180) < PI).
  { assert (Hunit : PI / 180 * 180 = PI) by field. split; nra. }
  assert (Hsin : 0 < sin (deg * (PI / 180))) by (apply sin_gt_0; lra).
  assert (Hnorth : calculateBearing origin (mkCoordinate deg 0) = 0).
  { unfold calculateBearing, toRadians, toDegrees, origin.
    cbn [latitude longitude].
    replace ((0 - 0) * (PI / 180)) with 0 by ring.
    replace (0 * (PI / 180)) with 0 by ring.
    rewrite sin_0, cos_0.
    match goal with
    | |- context [Math_atan2 ?y ?x] =>
        replace x with (sin (deg * (PI / 180))) by ring;
        replace y with 0 by ring
    end.
    rewrite Math_atan2_north by assumption.
    replace (0 * (180 / PI) + 360) with (0 + 360) by ring.
    apply Number_mod_turn. lra. }
  assert (Heast : calculateBearing origin (mkCoordinate 0 deg) = 90).
  { unfold calculateBearing, toRadians, toDegrees, origin.
    cbn [latitude longitude].
    replace ((deg - 0) * (PI / 180)) with (deg * (PI / 180)) by ring.
    replace (0 * (PI / 180)) with 0 by ring.
    rewrite sin_0, cos_0.
    match goal with
    | |- context [Math_atan2 ?y ?x] =>
        replace x with 0 by ring;
        replace y with (sin (deg * (PI / 180))) by ring
    end.
    rewrite Math_atan2_east by assumption.
    replace (PI / 2 * (180 / PI) + 360) with (90 + 360) by (field; lra).
    apply Number_mod_turn. lra. }
  rewrite Hnorth, Heast. repeat split.
  - apply (direction_sector 0 0); [lia|lra].
  - apply (direction_sector 90 2); [lia|lra].
Qed.

Lemma calculateBearing_north_east_witness :
  calculateBearing origin (mkCoordinate 1 0) = 0 /\
  getDirectionFromBearing (calculateBearing origin (mkCoordinate 1 0))
  = Some "North" /\
  calculateBearing origin (mkCoordinate 0 1) = 90 /\
  getDirectionFromBearing (calculateBearing origin (mkCoordinate 0 1))
  = Some "East".
Proof. apply (calculateBearing_north_east 1). lra. Defined.

End Bearing.

(** ** Arrival times *)

Section ArrivalTimes.
Import JS LocationUtils Spec.

(** X9.  At a positive average speed the minutes of [calculateETA] are
    finite, not negative and within half a minute of
    [distance / speed * 60], and the distance it reports is within
    0.005 km of the distance. *)
Theorem calculateETA_bounds (cur dest : Coordinate) (avg : option R) :
  0 < default 30 avg ->
  let d := calculateDistance cur dest in
  let r := calculateETA cur dest avg in
  exists m,
    eta r = Finite m /\
    (0 <= m)%Z /\
    Rabs (IZR m - d / default 30 avg * 60) <= 1 / 2 /\
    Rabs (eta_distance r - d) <= 5 / 1000.
Proof.
  intros Hv. cbn zeta.
  exists (Math_round (calculateDistance cur dest / default 30 avg * 60)).
  split; [apply calculateETA_finite; lra|].
  unfold calculateETA. cbn [eta_distance].
  pose proof (calculateDistance_nonneg cur dest) as Hd.
  set (d := calculateDistance cur dest) in *.
  assert (Hq : 0 <= d / default 30 avg * 60).
  { apply Rmult_le_pos; [|lra]. unfold Rdiv. apply Rmult_le_pos; [assumption|].
    left. now apply Rinv_0_lt_compat. }
  split; [now apply Math_round_nonneg|].
  split.
  - pose proof (Math_round_bound (d / default 30 avg * 60)).
    apply Rabs_le. lra.
  - pose proof (Math_round_bound (d * 100)).
    apply Rabs_le. lra.
Qed.

Lemma calculateETA_bounds_witness :
  exists m,
    eta (calculateETA origin (north_of_origin 1) None) = Finite m /\
    (0 <= m)%Z /\
    Rabs (IZR m - calculateDistance origin (north_of_origin 1) / 30 * 60)
    <= 1 / 2 /\
    Rabs (eta_distance (calculateETA origin (north_of_origin 1) None)
          - calculateDistance origin (north_of_origin 1)) <= 5 / 1000.
Proof.
  apply (calculateETA_bounds origin (north_of_origin 1) None).
  cbn [default]. lra.
Defined.

(** X10.  [calculateStopETA] gives the minutes and the text that
    [calculateETA] gives for the location of the stop at the speed
    [max (speed, 5)]: a speed below 5 km/h, also 0 or a negative one,
    counts as 5 km/h, so that the minutes are finite and never negative;
    the distance is reported unrounded. *)
Theorem calculateStopETA_floor_speed (cur : Coordinate) (stop : Stop)
    (speed : option R) :
  let r := calculateStopETA cur stop speed in
  let e := calculateETA cur (location stop)
             (Some (Rmax (default 30 speed) 5)) in
  Finite (se_eta r) = eta e /\
  se_etaText r = etaText e /\
  se_distance r = calculateDistance cur (location stop) /\
  (0 <= se_eta r)%Z /\
  (default 30 speed <= 5 ->
   se_eta r = se_eta (calculateStopETA cur stop (Some 5)) /\
   se_etaText r = se_etaText (calculateStopETA cur stop (Some 5))).
Proof.
  cbn zeta.
  pose proof (Rmax_r (default 30 speed) 5) as Hmax.
  assert (Hsame : Finite (se_eta (calculateStopETA cur stop speed))
                  = eta (calculateETA cur (location stop)
                           (Some (Rmax (default 30 speed) 5))) /\
                  se_etaText (calculateStopETA cur stop speed)
                  = etaText (calculateETA cur (location stop)
                               (Some (Rmax (default 30 speed) 5)))).
  { unfold calculateStopETA, calculateETA, Math_max, Number_div.
    cbn [se_eta se_etaText eta etaText].
    change (default 30 (Some (Rmax (default 30 speed) 5)))
      with (Rmax (default 30 speed) 5).
    destruct (Req_dec_T (Rmax (default 30 speed) 5) 0) as [H0|_]; [lra|].
    split; reflexivity. }
  destruct Hsame as [Heta Htext].
  split; [assumption|]. split; [assumption|].
  split; [reflexivity|]. split.
  - unfold calculateStopETA, Math_max. cbn [se_eta].
    apply Math_round_nonneg.
    pose proof (calculateDistance_nonneg cur (location stop)) as Hd.
    apply Rmult_le_pos; [|lra]. unfold Rdiv. apply Rmult_le_pos; [assumption|].
    left. apply Rinv_0_lt_compat. lra.
  - intros Hslow. unfold calculateStopETA, Math_max. cbn [se_eta se_etaText].
    rewrite (Rmax_right (default 30 speed) 5) by assumption.
    change (default 30 (Some 5)) with 5.
    rewrite (Rmax_right 5 5) by lra. split; reflexivity.
Qed.

Lemma calculateStopETA_floor_speed_witness :
  se_eta (calculateStopETA origin Scenario.stop1 (Some 0))
  = se_eta (calculateStopETA origin Scenario.stop1 (Some 5)) /\
  se_etaText (calculateStopETA origin Scenario.stop1 (Some 0))
  = se_etaText (calculateStopETA origin Scenario.stop1 (Some 5)).
Proof.
  apply (calculateStopETA_floor_speed origin Scenario.stop1 (Some 0)).
  change (0 <= 5). lra.
Defined.

End ArrivalTimes.

(** ** Stops along a route *)

Section StopsAlongRoute.
Import JS LocationUtils Spec.

Lemma sort_insert_Permutation {A : Type} (key : A -> R) (x : A) (l : list A) :
  sort_insert key x l ≡ₚ x :: l.
Proof.
  induction l as [|y l IH]; cbn [sort_insert]; [reflexivity|].
  destruct (Rle_dec (key x) (key y)); [reflexivity|].
  rewrite IH. apply Permutation_swap.
Qed.

Lemma Array_sort_by_Permutation {A : Type} (key : A -> R) (l : list A) :
  Array_sort_by key l ≡ₚ l.
Proof.
  unfold Array_sort_by. induction l as [|x l IH]; cbn [foldr]; [reflexivity|].
  now rewrite sort_insert_Permutation, IH.
Qed.

Lemma sort_insert_sorted {A : Type} (key : A -> R) (x : A) (l : list A) :
  StronglySorted (fun a b => key a <= key b) l ->
  StronglySorted (fun a b => key a <= key b) (sort_insert key x l).
Proof.
  induction 1 as [|y l Hsorted IH Hall]; cbn [sort_insert].
  - repeat constructor.
  - destruct (Rle_dec (key x) (key y)) as [Hle|Hgt].
    + constructor; [now constructor|].
      constructor; [assumption|].
      eapply Forall_impl; [exact Hall|]. cbn. intros z Hz. lra.
    + constructor; [assumption|].
      rewrite sort_insert_Permutation. constructor; [lra|assumption].
Qed.

Lemma Array_sort_by_sorted {A : Type} (key : A -> R) (l : list A) :
  StronglySorted (fun a b => key a <= key b) (Array_sort_by key l).
Proof.
  unfold Array_sort_by. induction l as [|x l IH]; cbn [foldr].
  - constructor.
  - now apply sort_insert_sorted.
Qed.

(** What the inner loop finds for a stop. *)
Lemma match_route_point_found (stop : Stop) (points : list Coordinate)
    (tol : R) (found : StopAlongRoute) :
  match_route_point stop points tol = Some found ->
  sar_stop found = stop /\
  nearestRoutePoint found ∈ points /\
  distanceFromRoute found
  = calculateDistance (location stop) (nearestRoutePoint found) /\
  distanceFromRoute found <= tol /\
  exists k, points !! k = Some (nearestRoutePoint found) /\
    forall j q, (j < k)%nat -> points !! j = Some q ->
                tol < calculateDistance (location stop) q.
Proof.
  induction points as [|p points IH]; cbn [match_route_point]; [discriminate|].
  destruct (Rle_dec (calculateDistance (location stop) p) tol) as [Hle|Hfar].
  - intros [= <-]. cbn [sar_stop nearestRoutePoint distanceFromRoute].
    split; [reflexivity|]. split; [left|]. split; [reflexivity|].
    split; [assumption|]. exists 0%nat. split; [reflexivity|].
    intros j q Hj. lia.
  - intros Hfound. destruct (IH Hfound) as (H1 & H2 & H3 & H4 & k & Hk & Hbefore).
    repeat split; try assumption; [now right|].
    exists (S k). split; [exact Hk|].
    intros [|j] q Hj Hq.
    + injection Hq as <-. now apply Rnot_le_lt.
    + apply (Hbefore j q); [lia|exact Hq].
Qed.

Lemma match_route_point_near (stop : Stop) (points : list Coordinate)
    (tol : R) (p : Coordinate) :
  p ∈ points -> calculateDistance (location stop) p <= tol ->
  is_Some (match_route_point stop points tol).
Proof.
  intros Hp Hle. induction points as [|q points IH]; cbn [match_route_point].
  - now apply elem_of_nil in Hp.
  - destruct (Rle_dec (calculateDistance (location stop) q) tol) as [|Hfar];
      [by eexists|].
    apply elem_of_cons in Hp as [->|Hp]; [contradiction|]. now apply IH.
Qed.

Lemma stops_near_route_elem (allStops : list Stop) (points : list Coordinate)
    (tol : R) (item : StopAlongRoute) :
  item ∈ stops_near_route allStops points tol <->
  exists stop, stop ∈ allStops /\
    match_route_point stop points tol = Some item.
Proof.
  induction allStops as [|s l IH]; cbn [stops_near_route].
  - split; [intros H; now apply elem_of_nil in H|].
    intros (stop & H & _). now apply elem_of_nil in H.
  - destruct (match_route_point s points tol) as [found|] eqn:Hs.
    + rewrite elem_of_cons, IH. split.
      * intros [->|(stop & Hin & Hm)].
        -- exists s. split; [left|assumption].
        -- exists stop. split; [now right|assumption].
      * intros (stop & Hin & Hm). apply elem_of_cons in Hin as [->|Hin].
        -- left. congruence.
        -- right. now exists stop.
    + rewrite IH. split.
      * intros (stop & Hin & Hm). exists stop. split; [now right|assumption].
      * intros (stop & Hin & Hm). apply elem_of_cons in Hin as [->|Hin].
        -- congruence.
        -- now exists stop.
Qed.

Lemma stops_near_route_length (allStops : list Stop) (points : list Coordinate)
    (tol : R) :
  (length (stops_near_route allStops points tol) <= length allStops)%nat.
Proof.
  induction allStops as [|s l IH]; cbn [stops_near_route length]; [lia|].
  destruct (match_route_point s points tol); cbn [length]; lia.
Qed.

(** X11.  [getStopsAlongRoute] returns the stops that lie within the
    tolerance (0.2 km when none is given) of the start point, of a
    waypoint or of the end point of the route, each with the first such
    point of the route (every route point before it is farther from the
    stop than the tolerance) and its distance to that point; the result
    is in the order of the latitudes of the stops, south to north, and it
    is empty when the route or the list of stops is absent. *)
Theorem getStopsAlongRoute_sorted_near (route : Route) (allStops : list Stop)
    (tolerance : option R) :
  let tol := default (2 / 10) tolerance in
  let res := getStopsAlongRoute (Some route) (Some allStops) tolerance in
  StronglySorted
    (fun a b => latitude (location (sar_stop a))
                <= latitude (location (sar_stop b))) res /\
  (forall item, item ∈ res ->
     sar_stop item ∈ allStops /\
     nearestRoutePoint item ∈ routePoints route /\
     distanceFromRoute item
     = calculateDistance (location (sar_stop item)) (nearestRoutePoint item) /\
     distanceFromRoute item <= tol /\
     exists k, routePoints route !! k = Some (nearestRoutePoint item) /\
       forall j q, (j < k)%nat -> routePoints route !! j = Some q ->
                   tol < calculateDistance (location (sar_stop item)) q) /\
  (forall stop p, stop ∈ allStops -> p ∈ routePoints route ->
     calculateDistance (location stop) p <= tol ->
     exists item, item ∈ res /\ sar_stop item = stop) /\
  (length res <= length allStops)%nat /\
  getStopsAlongRoute None (Some allStops) tolerance = [] /\
  getStopsAlongRoute (Some route) None tolerance = [].
Proof.
  cbn zeta. unfold getStopsAlongRoute.
  set (tol := default (2 / 10) tolerance).
  set (key := fun a => latitude (location (sar_stop a))).
  split; [apply (Array_sort_by_sorted key)|].
  split; [|split; [|split; [|split; reflexivity]]].
  - intros item Hitem. rewrite Array_sort_by_Permutation in Hitem.
    apply stops_near_route_elem in Hitem as (stop & Hin & Hm).
    apply match_route_point_found in Hm as (<- & H2 & H3 & H4 & H5).
    repeat split; assumption.
  - intros stop p Hstop Hp Hle.
    destruct (match_route_point_near stop (routePoints route) tol p Hp Hle)
      as [item Hitem].
    exists item. split.
    + rewrite Array_sort_by_Permutation. apply stops_near_route_elem.
      now exists stop.
    + now apply match_route_point_found in Hitem as (-> & _).
  - rewrite Array_sort_by_Permutation. apply stops_near_route_length.
Qed.

End StopsAlongRoute.

(** ** The notifications that are created *)

Section NotificationsCreated.
Import JS LocationUtils NotificationUtils BusTracking Spec Scenario.

(** The [reduce] of [checkAndNotifyBusUpdates] and the loop of
    [findNearestStop] make the same comparisons. *)
Lemma nearest_fold_loop (u : BusUpdate) (rest : list Stop) (cur : Stop) (d : R) :
  fold_left (nearest_step u) rest (Some {| n_stop := cur; n_distance := d |})
  = Some {| n_stop := fst (nearest_loop (upd_location u) rest cur d);
            n_distance := snd (nearest_loop (upd_location u) rest cur d) |}.
Proof.
  revert cur d. induction rest as [|s rest IH]; intros cur d; [reflexivity|].
  cbn [fold_left nearest_loop]. unfold nearest_step at 2.
  rewrite notification_distance. cbn [n_distance].
  destruct (Rlt_dec _ d); apply IH.
Qed.

(** The nearest stop that the [reduce] finds in a non-empty list. *)
Lemma nearest_fold_first_nearest (u : BusUpdate) (s0 : Stop) (rest : list Stop) :
  exists i stop,
    fold_left (nearest_step u) (s0 :: rest) None
    = Some {| n_stop := stop;
              n_distance :=
                LocationUtils.calculateDistance (upd_location u) (location stop) |} /\
    nearest_loop (upd_location u) rest s0
      (LocationUtils.calculateDistance (upd_location u) (location s0))
    = (stop, LocationUtils.calculateDistance (upd_location u) (location stop)) /\
    first_nearest (upd_location u) (s0 :: rest) i stop.
Proof.
  destruct (nearest_loop_invariant (upd_location u) rest [s0] 0 s0)
    as (i & stop & Hloop & Hfirst).
  { repeat split.
    - intros j s Hj. apply list_lookup_singleton_Some in Hj as [_ <-]. lra.
    - intros j s Hj. lia. }
  exists i, stop. split; [|split; assumption].
  cbn [fold_left]. unfold nearest_step at 2. rewrite notification_distance.
  rewrite nearest_fold_loop, Hloop. reflexivity.
Qed.

(** X12.  The stop that [checkAndNotifyBusUpdates] takes for the nearest
    one is the stop that [findNearestStop] returns for the location of
    the update, with its unrounded distance; both find no stop exactly
    when there is none. *)
Theorem nearest_stop_agrees (u : BusUpdate) (stops : list Stop) :
  match fold_left (nearest_step u) stops None,
        findNearestStop (upd_location u) (Some stops) with
  | Some n, Some found =>
      n_stop n = sd_stop found /\
      n_distance n
      = LocationUtils.calculateDistance (upd_location u) (location (n_stop n)) /\
      sd_distance found = IZR (Math_round (n_distance n * 100)) / 100
  | None, None => stops = []
  | _, _ => False
  end.
Proof.
  destruct stops as [|s0 rest]; [reflexivity|].
  destruct (nearest_fold_first_nearest u s0 rest)
    as (i & stop & Hfold & Hloop & _).
  rewrite Hfold. unfold findNearestStop. rewrite Hloop.
  cbn [n_stop n_distance sd_stop sd_distance]. repeat split.
Qed.

(** The minutes announced for a stop within half a kilometre. *)
Lemma arrival_minutes (d : R) :
  0 <= d <= 5 / 10 ->
  Math_round (d / 30 * 60) = (if Rlt_dec d (25 / 100) then 0 else 1)%Z.
Proof.
  intros [Hlo Hhi]. destruct (Rlt_dec d (25 / 100)).
  - apply Math_round_eq. lra.
  - apply Math_round_eq. lra.
Qed.

(** X13.  Every notification that [checkAndNotifyBusUpdates] creates was
    created with the permission granted, for the first tracked bus that
    has the id of the update and for a stop of the list that is within
    0.5 km of the bus and that no stop is nearer than; it carries the tag
    of that bus and stop, requires interaction, offers the action "View on
    Map", and announces "Arriving now!" below 250 m and "1 min away" from
    there on.  At most one notification is created. *)
Theorem notification_created (perm : Permission) (tracked : list Bus)
    (u : BusUpdate) (stops : list Stop) (n : Notification) :
  n ∈ checkAndNotifyBusUpdates perm tracked u stops ->
  checkAndNotifyBusUpdates perm tracked u stops = [n] /\
  perm = granted /\
  exists bus stop,
    find (fun b => String.eqb (bus_id b) (busId u)) tracked = Some bus /\
    stop ∈ stops /\
    LocationUtils.calculateDistance (upd_location u) (location stop) <= 5 / 10 /\
    (forall s, s ∈ stops ->
       LocationUtils.calculateDistance (upd_location u) (location stop)
       <= LocationUtils.calculateDistance (upd_location u) (location s)) /\
    n = {| title := "Bus " +:+ busNumber bus +:+ " Approaching";
           body := "Route: " +:+ routeName bus +:+ newline +:+
                   "Stop: " +:+ stopName stop +:+ newline +:+
                   (if Rlt_dec (LocationUtils.calculateDistance
                                  (upd_location u) (location stop)) (25 / 100)
                    then "Arriving now!" else "1 min away");
           tag := "bus-" +:+ bus_id bus +:+ "-stop-" +:+ stop_id stop;
           requireInteraction := true;
           actions := [("view", "View on Map")] |}.
Proof.
  unfold checkAndNotifyBusUpdates.
  destruct (find _ tracked) as [bus|] eqn:Hbus;
    [|intros H; now apply elem_of_nil in H].
  destruct stops as [|s0 rest]; [intros H; now apply elem_of_nil in H|].
  destruct (nearest_fold_first_nearest u s0 rest)
    as (i & stop & Hfold & _ & Hi & Hmin & _).
  rewrite Hfold. cbn [n_distance n_stop].
  set (d := LocationUtils.calculateDistance (upd_location u) (location stop)) in *.
  destruct (Rle_dec d (5 / 10)) as [Hd|_]; [|intros H; now apply elem_of_nil in H].
  assert (Hd0 : 0 <= d) by apply calculateDistance_nonneg.
  rewrite arrival_minutes by lra.
  unfold showBusArrivalNotification, showNotification.
  destruct perm; try (intros H; now apply elem_of_nil in H).
  intros Hn. apply list_elem_of_singleton in Hn. subst n.
  split; [|split; [reflexivity|]].
  - reflexivity.
  - exists bus, stop. split; [reflexivity|].
    split; [now apply list_elem_of_lookup_2 in Hi|].
    split; [assumption|]. split.
    + intros s Hs. apply list_elem_of_lookup_1 in Hs as [j Hj].
      now apply (Hmin j s).
    + fold d. destruct (Rlt_dec d (25 / 100)); reflexivity.
Qed.

Lemma notification_created_witness :
  let n0 := {| title := "Bus 42 Approaching";
               body := "Route: Ring" +:+ newline +:+ "Stop: Depot" +:+
                       newline +:+ "Arriving now!";
               tag := "bus-b1-stop-s1";
               requireInteraction := true;
               actions := [("view", "View on Map")] |} in
  checkAndNotifyBusUpdates granted [bus1] (update_at 1000%Z) [stop1] = [n0] /\
  granted = granted /\
  exists bus stop,
    find (fun b => String.eqb (bus_id b) (busId (update_at 1000%Z))) [bus1]
    = Some bus /\
    stop ∈ [stop1] /\
    LocationUtils.calculateDistance (upd_location (update_at 1000%Z))
      (location stop) <= 5 / 10 /\
    (forall s, s ∈ [stop1] ->
       LocationUtils.calculateDistance (upd_location (update_at 1000%Z))
         (location stop)
       <= LocationUtils.calculateDistance (upd_location (update_at 1000%Z))
            (location s)) /\
    n0 = {| title := "Bus " +:+ busNumber bus +:+ " Approaching";
            body := "Route: " +:+ routeName bus +:+ newline +:+
                    "Stop: " +:+ stopName stop +:+ newline +:+
                    (if Rlt_dec (LocationUtils.calculateDistance
                                   (upd_location (update_at 1000%Z))
                                   (location stop)) (25 / 100)
                     then "Arriving now!" else "1 min away");
            tag := "bus-" +:+ bus_id bus +:+ "-stop-" +:+ stop_id stop;
            requireInteraction := true;
            actions := [("view", "View on Map")] |}.
Proof.
  cbn zeta.
  apply (notification_created granted [bus1] (update_at 1000%Z) [stop1]).
  rewrite checkAndNotify_at_stop by reflexivity.
  apply list_elem_of_singleton. reflexivity.
Defined.

End NotificationsCreated.

(** ** Location updates: what is stored and what is emitted *)

Section LocationUpdates.
Import JS LocationUtils BusRoutes Spec Scenario.

(** X14.  A location update of an unknown bus answers 404, changes
    nothing and emits nothing.  A location update of a known bus emits
    nothing and answers 500, and changes no other bus.  When the bus has
    no recorded location the update is refused and the collection stays
    as it is.  When it has one, the update is stored all the same: the
    coordinate of the sample becomes the current and the last location,
    the time of the update the time of the last update, the two distance
    counters grow by the haversine distance from the location recorded
    before, and id, number, status and route stay as they were. *)
Theorem patchLocation_outcome (db : DB) (id : string) (body : LocationBody)
    (now : Date) :
  let out := patchLocation db id body now in
  let here := mkCoordinate (body_latitude body) (body_longitude body) in
  match db !! id with
  | None => out = {| db_after := db; emitted := []; response := NotFound |}
  | Some bus =>
      emitted out = [] /\
      response out = ServerError /\
      (forall other, other <> id -> db_after out !! other = db !! other) /\
      match lastLocation (tripStats bus) with
      | None => db_after out = db
      | Some last =>
          exists stored,
            db_after out !! id = Some stored /\
            currentLocation stored = here /\
            lastLocation (tripStats stored) = Some here /\
            lastUpdated stored = Some now /\
            totalDistance (tripStats stored)
            = totalDistance (tripStats bus) + calculateDistance last here /\
            distanceToday (tripStats stored)
            = distanceToday (tripStats bus) + calculateDistance last here /\
            _id stored = _id bus /\
            busNumber stored = busNumber bus /\
            status stored = status bus /\
            route stored = route bus
      end
  end.
Proof.
  cbn zeta. destruct (db !! id) as [bus|] eqn:Hbus.
  - rewrite (patchLocation_found db id bus) by assumption.
    destruct (updatedBus bus body now) as [stored|] eqn:Hup;
      cbn [db_after response emitted].
    + split; [reflexivity|]. split; [reflexivity|].
      split; [intros other Hne; now rewrite lookup_insert_ne|].
      destruct (lastLocation (tripStats bus)) as [last|] eqn:Hlast.
      * apply updatedBus_Some in Hup as (inc & Hinc & _ & ->).
        rewrite (distanceIncrement_last bus last) in Hinc by assumption.
        injection Hinc as <-. eexists. rewrite lookup_insert_eq.
        split; [reflexivity|]. now repeat split.
      * assert (Hnone : updatedBus bus body now = None)
          by now apply updatedBus_None.
        congruence.
    + apply updatedBus_None in Hup. rewrite Hup. now repeat split.
  - unfold patchLocation. now rewrite Hbus.
Qed.

(** X15.  A speed other than 0 in the request of a bus with a recorded
    location is stored as it is, whatever the distance and the time since
    the last update; for a bus with no recorded location the request
    stores nothing. *)
Theorem explicit_speed_verbatim (db : DB) (id : string) (bus : Bus)
    (body : LocationBody) (now : Date) (v : R) :
  db !! id = Some bus ->
  body_speed body = Some v ->
  v <> 0 ->
  match lastLocation (tripStats bus) with
  | Some _ =>
      exists stored,
        db_after (patchLocation db id body now) !! id = Some stored /\
        speed stored = v
  | None => db_after (patchLocation db id body now) = db
  end.
Proof.
  intros Hbus Hspeed Hv.
  destruct (lastLocation (tripStats bus)) as [last|] eqn:Hlast.
  - destruct (patchLocation_stored db id bus body now _ Hbus
                (distanceIncrement_last bus last _ _ Hlast))
      as (stored & _ & -> & Hstored & _).
    cbn [db_after]. exists stored. rewrite lookup_insert_eq.
    split; [reflexivity|]. rewrite Hstored, Hspeed.
    now apply calculatedSpeed_explicit.
  - rewrite (patchLocation_found db id bus) by assumption.
    replace (updatedBus bus body now) with (@None Bus)
      by (symmetry; now apply updatedBus_None).
    reflexivity.
Qed.

Lemma explicit_speed_verbatim_witness :
  exists stored,
    db_after (patchLocation fleet "b1" (sample_north (Some 55)) 2000%Z) !! "b1"
    = Some stored /\
    speed stored = 55.
Proof.
  apply (explicit_speed_verbatim fleet "b1" moving_bus
           (sample_north (Some 55)) 2000%Z 55).
  - apply lookup_singleton_eq.
  - reflexivity.
  - lra.
Defined.

(** The speed computed when the request has none. *)
Lemma calculatedSpeed_none (bus : Bus) (inc : R) (now : Date) :
  0 <= inc ->
  0 <= calculatedSpeed bus None (Some inc) now /\
  (calculatedSpeed bus None (Some inc) now = 0 \/
   exists last, lastUpdated bus = Some last /\
     0 < inc /\ (last < now)%Z /\
     calculatedSpeed bus None (Some inc) now
     = inc / (IZR (now - last) / (1000 * 60 * 60))).
Proof.
  intros Hinc. unfold calculatedSpeed. cbn [not_number or_zero].
  destruct (Rlt_dec 0 inc) as [Hpos|_]; [|split; [lra|now left]].
  destruct (lastUpdated bus) as [last|]; [|split; [lra|now left]].
  destruct (Rlt_dec 0 (IZR (now - last) / (1000 * 60 * 60))) as [Ht|_];
    [|split; [lra|now left]].
  split.
  - unfold Rdiv at 1. apply Rmult_le_pos; [lra|].
    left. now apply Rinv_0_lt_compat.
  - right. exists last. repeat split; try assumption.
    assert (Hz : 0 < IZR (now - last)).
    { apply Rmult_lt_reg_r with (/ (1000 * 60 * 60)); [lra|].
      unfold Rdiv in Ht. lra. }
    apply lt_IZR in Hz. lia.
Qed.

(** X16.  Without a speed in the request, the speed stored for a bus with
    a recorded location is never negative: it is 0, or, when the bus has
    moved and the update is later than the previous one, the distance
    moved divided by the hours since the previous update.  For a bus with
    no recorded location the request stores nothing. *)
Theorem derived_speed_nonnegative (db : DB) (id : string) (bus : Bus)
    (body : LocationBody) (now : Date) :
  db !! id = Some bus ->
  body_speed body = None ->
  match distanceIncrement bus (body_latitude body) (body_longitude body) with
  | Some inc =>
      exists stored,
        db_after (patchLocation db id body now) !! id = Some stored /\
        0 <= speed stored /\
        (speed stored = 0 \/
         exists last, lastUpdated bus = Some last /\ (last < now)%Z /\
           0 < inc /\
           speed stored = inc / (IZR (now - last) / (1000 * 60 * 60)))
  | None =>
      lastLocation (tripStats bus) = None /\
      db_after (patchLocation db id body now) = db
  end.
Proof.
  intros Hbus Hspeed.
  destruct (distanceIncrement bus (body_latitude body) (body_longitude body))
    as [inc|] eqn:Hinc.
  - destruct (patchLocation_stored db id bus body now inc Hbus Hinc)
      as (stored & _ & -> & Hstored & _).
    cbn [db_after]. exists stored. rewrite lookup_insert_eq.
    split; [reflexivity|]. rewrite Hstored, Hspeed.
    destruct (calculatedSpeed_none bus inc now
                (distanceIncrement_nonneg _ _ _ _ Hinc)) as [Hnn [Hz|Hd]].
    + split; [assumption|now left].
    + split; [assumption|]. right.
      destruct Hd as (last & H1 & H2 & H3 & H4). exists last. now repeat split.
  - assert (Hlast : lastLocation (tripStats bus) = None).
    { destruct (lastLocation (tripStats bus)) as [last|] eqn:Hlast;
        [|reflexivity].
      rewrite (distanceIncrement_last bus last) in Hinc by assumption.
      discriminate. }
    split; [assumption|].
    rewrite (patchLocation_found db id bus) by assumption.
    replace (updatedBus bus body now) with (@None Bus)
      by (symmetry; now apply updatedBus_None).
    reflexivity.
Qed.

Lemma derived_speed_nonnegative_witness :
  exists stored,
    db_after (patchLocation fleet "b1" (sample_north None) 3601000%Z) !! "b1"
    = Some stored /\
    0 <= speed stored /\
    (speed stored = 0 \/
     exists last, lastUpdated moving_bus = Some last /\ (last < 3601000)%Z /\
       0 < 6371 * (PI / 180) /\
       speed stored
       = 6371 * (PI / 180) / (IZR (3601000 - last) / (1000 * 60 * 60))).
Proof.
  pose proof (derived_speed_nonnegative fleet "b1" moving_bus (sample_north None)
                3601000%Z) as H.
  cbn [sample_north body_latitude body_longitude] in H.
  rewrite moving_bus_increment in H. apply H.
  - apply lookup_singleton_eq.
  - reflexivity.
Defined.

(** The trip start time over the samples of one bus. *)
Lemma samples_tripStartTime (samples : list Sample) (bus : Bus) :
  tripStartTime
    (tripStats (fold_left (fun b s => default b (updatedBus b (fst s) (snd s)))
                  samples bus))
  = match tripStartTime (tripStats bus), lastLocation (tripStats bus), samples
    with
    | Some t, _, _ => Some t
    | None, Some _, s :: _ => Some (snd s)
    | None, _, _ => None
    end.
Proof.
  revert bus. induction samples as [|s samples IH]; intros bus.
  - cbn [fold_left].
    now destruct (tripStartTime (tripStats bus)), (lastLocation (tripStats bus)).
  - cbn [fold_left].
    destruct (updatedBus bus (fst s) (snd s)) as [bus1|] eqn:Hup.
    + change (default bus (Some bus1)) with bus1. rewrite IH.
      destruct (lastLocation (tripStats bus)) as [c|] eqn:Hc;
        [|assert (Hnone : updatedBus bus (fst s) (snd s) = None)
            by (now apply updatedBus_None); congruence].
      apply updatedBus_Some in Hup as (inc & _ & _ & ->).
      cbn [tripStats tripStartTime lastLocation].
      now destruct (tripStartTime (tripStats bus)).
    + change (default bus None) with bus. rewrite IH.
      apply updatedBus_None in Hup. rewrite Hup.
      destruct (tripStartTime (tripStats bus)); now destruct samples.
Qed.

(** X17.  Over any sequence of location updates of a bus with a recorded
    location, the trip start time is set once: a start time that is set is
    kept, and one that is not set becomes the time of the first update of
    the sequence.  For a bus with no recorded location the updates are
    refused, and a start time that is not set stays unset. *)
Theorem tripStartTime_set_once (db : DB) (id : string) (bus : Bus)
    (samples : list Sample) :
  db !! id = Some bus ->
  exists bus',
    handle_all db (map (sample_request id) samples) !! id = Some bus' /\
    tripStartTime (tripStats bus')
    = match tripStartTime (tripStats bus), lastLocation (tripStats bus), samples
      with
      | Some t, _, _ => Some t
      | None, Some _, s :: _ => Some (snd s)
      | None, _, _ => None
      end.
Proof.
  intros Hbus. eexists.
  split; [exact (handle_all_samples samples db id bus Hbus)|].
  apply samples_tripStartTime.
Qed.

Lemma tripStartTime_set_once_witness :
  exists bus',
    handle_all {[ "b1" := located_bus ]}
      (map (sample_request "b1")
         [(sample_origin, 1000%Z); (sample_north None, 2000%Z)]) !! "b1"
    = Some bus' /\
    tripStartTime (tripStats bus') = Some 1000%Z.
Proof.
  apply (tripStartTime_set_once {[ "b1" := located_bus ]} "b1" located_bus
           [(sample_origin, 1000%Z); (sample_north None, 2000%Z)]).
  apply lookup_singleton_eq.
Defined.

End LocationUpdates.

(** ** The other bus handlers *)

Section BusAdministration.
Import JS LocationUtils BusRoutes Spec Scenario.

Lemma number_taken_true (db : DB) (id number : string) :
  number_taken db id number = true <->
  exists j b, db !! j = Some b /\ j <> id /\ busNumber b = number.
Proof.
  unfold number_taken. rewrite existsb_exists. split.
  - intros ([j b] & Hin & Htest). apply list_elem_of_In in Hin.
    apply elem_of_map_to_list in Hin. cbn [fst snd] in Htest.
    apply andb_true_iff in Htest as [Hne Heq].
    apply negb_true_iff, String.eqb_neq in Hne. apply String.eqb_eq in Heq.
    now exists j, b.
  - intros (j & b & Hj & Hne & Heq). exists (j, b). split.
    + apply list_elem_of_In. now apply elem_of_map_to_list.
    + cbn [fst snd]. apply andb_true_iff. split.
      * now apply negb_true_iff, String.eqb_neq.
      * now apply String.eqb_eq.
Qed.

Lemma number_taken_false (db : DB) (id number : string) :
  number_taken db id number = false <->
  forall j b, db !! j = Some b -> j <> id -> busNumber b <> number.
Proof.
  rewrite <- not_true_iff_false, number_taken_true. split.
  - intros Hno j b Hj Hne Heq. apply Hno. now exists j, b.
  - intros Hall (j & b & Hj & Hne & Heq). now apply (Hall j b).
Qed.

(** Replacing a document by one with the same id, ordered counters and a
    number that no other document has. *)
Lemma collection_ok_insert (db : DB) (id : string) (bus' : Bus) :
  collection_ok db ->
  _id bus' = id ->
  0 <= distanceToday (tripStats bus') <= totalDistance (tripStats bus') ->
  (forall j b, db !! j = Some b -> j <> id -> busNumber b <> busNumber bus') ->
  collection_ok (<[id := bus']> db).
Proof.
  intros [Hdocs Huniq] Hid Hord Hfree. split.
  - intros i b Hi. destruct (decide (i = id)) as [->|Hne].
    + rewrite lookup_insert_eq in Hi. injection Hi as <-. now split.
    + rewrite lookup_insert_ne in Hi by congruence. now apply Hdocs.
  - intros i j bi bj Hi Hj Heq.
    destruct (decide (i = id)) as [->|Hi'], (decide (j = id)) as [->|Hj'];
      try reflexivity.
    + rewrite lookup_insert_eq in Hi. injection Hi as <-.
      rewrite lookup_insert_ne in Hj by congruence.
      exfalso. now apply (Hfree j bj Hj Hj').
    + rewrite lookup_insert_eq in Hj. injection Hj as <-.
      rewrite lookup_insert_ne in Hi by congruence.
      exfalso. now apply (Hfree i bi Hi Hi').
    + rewrite lookup_insert_ne in Hi by congruence.
      rewrite lookup_insert_ne in Hj by congruence.
      now apply (Huniq i j bi bj).
Qed.

(** A document that keeps its number. *)
Lemma collection_ok_update (db : DB) (id : string) (bus bus' : Bus) :
  collection_ok db ->
  db !! id = Some bus ->
  _id bus' = _id bus ->
  busNumber bus' = busNumber bus ->
  0 <= distanceToday (tripStats bus') <= totalDistance (tripStats bus') ->
  collection_ok (<[id := bus']> db).
Proof.
  intros Hok Hbus Hid Hnum Hord. pose proof Hok as [Hdocs Huniq].
  apply collection_ok_insert; try assumption.
  - rewrite Hid. now apply Hdocs.
  - intros j b Hj Hne Heq. apply Hne. apply (Huniq j id b bus Hj Hbus).
    congruence.
Qed.

Lemma handle_admin_ok (db : DB) (req : AdminRequest) :
  collection_ok db -> collection_ok (handle_admin db req).
Proof.
  intros Hok. pose proof Hok as [Hdocs Huniq].
  destruct req as [[id body now|id now]|id body now|id]; cbn [handle_admin handle].
  - destruct (db !! id) as [bus|] eqn:Hbus;
      [|unfold patchLocation; now rewrite Hbus].
    rewrite (patchLocation_found db id bus) by assumption.
    destruct (updatedBus bus body now) as [bus'|] eqn:Hup; cbn [db_after];
      [|assumption].
    apply updatedBus_Some in Hup as (inc & _ & Hinc & ->).
    apply (collection_ok_update db id bus); try easy.
    cbn [tripStats distanceToday totalDistance].
    destruct (Hdocs id bus Hbus) as [_ Hord]. lra.
  - unfold resetDistance. destruct (db !! id) as [bus|] eqn:Hbus; [|assumption].
    cbn [db_after]. apply (collection_ok_update db id bus); try easy.
    cbn [resetBus tripStats distanceToday totalDistance].
    destruct (Hdocs id bus Hbus) as [_ Hord]. lra.
  - unfold putBus. destruct (negb (putValidation body)); [assumption|].
    destruct (db !! id) as [bus|] eqn:Hbus; [|assumption].
    destruct (number_taken db id _) eqn:Htaken; [assumption|].
    cbn [fst]. apply collection_ok_insert; try assumption.
    + cbn [putUpdates _id]. now apply Hdocs.
    + cbn [putUpdates tripStats]. now apply (Hdocs id bus).
    + now apply number_taken_false.
  - unfold deleteBus. destruct (db !! id) as [bus|] eqn:Hbus; [|assumption].
    cbn [fst]. split.
    + intros i b Hi. apply lookup_delete_Some in Hi as [_ Hi]. now apply Hdocs.
    + intros i j bi bj Hi Hj. apply lookup_delete_Some in Hi as [_ Hi].
      apply lookup_delete_Some in Hj as [_ Hj]. now apply Huniq.
Qed.

(** X18.  Location updates, daily resets, edits and deletions of buses,
    in any number and order, keep the collection in order: every bus
    stays under its own id with [0 <= distanceToday <= totalDistance], and
    no two buses ever have the same bus number. *)
Theorem collection_stays_ok (db : DB) (reqs : list AdminRequest) :
  collection_ok db -> collection_ok (handle_admin_all db reqs).
Proof.
  revert db. induction reqs as [|req reqs IH]; intros db Hok; [assumption|].
  unfold handle_admin_all. cbn [fold_left]. apply IH.
  now apply handle_admin_ok.
Qed.

Lemma fresh_fleet_ok : collection_ok fresh_fleet.
Proof.
  unfold fresh_fleet. split.
  - intros id bus Hbus. apply lookup_singleton_Some in Hbus as [<- <-].
    cbn [fresh_bus newBus _id tripStats distanceToday totalDistance].
    split; [reflexivity|lra].
  - intros i j bi bj Hi Hj _. apply lookup_singleton_Some in Hi as [<- _].
    now apply lookup_singleton_Some in Hj as [<- _].
Qed.

Lemma collection_stays_ok_witness :
  collection_ok
    (handle_admin_all fresh_fleet
       [Trip (PatchLocation "b1" sample_origin 1000%Z);
        PutBus "b1" (mkBusBody (Some "43") None None None) 1500%Z;
        Trip (ResetDistance "b1" 2000%Z);
        DeleteBus "b1"]).
Proof. apply collection_stays_ok, fresh_fleet_ok. Defined.

End BusAdministration.

Section BusEdits.
Import JS LocationUtils BusRoutes Spec Scenario.

(** X19.  Whatever its body and its answer, [PUT /:id] leaves the trip
    statistics, the speed and the id of every bus as they are, and neither
    adds nor removes a bus. *)
Theorem putBus_keeps_statistics (db : DB) (id : string) (body : BusBody)
    (now : Date) (j : string) :
  tripStats <$> (fst (putBus db id body now) !! j) = tripStats <$> (db !! j) /\
  speed <$> (fst (putBus db id body now) !! j) = speed <$> (db !! j) /\
  _id <$> (fst (putBus db id body now) !! j) = _id <$> (db !! j).
Proof.
  unfold putBus. destruct (negb (putValidation body)); [now repeat split|].
  destruct (db !! id) as [bus|] eqn:Hbus; [|now repeat split].
  destruct (number_taken db id _); [now repeat split|]. cbn [fst].
  destruct (decide (j = id)) as [->|Hne].
  - rewrite lookup_insert_eq, Hbus. now repeat split.
  - rewrite lookup_insert_ne by congruence. now repeat split.
Qed.

(** X20.  [PUT /:id] with a bus number that is empty, or all white space,
    is answered 400 and changes nothing.  With the number of another bus,
    in a body that passes the validation, it is answered 500 and changes
    nothing.  Without a number, a body that passes the validation is
    stored: the bus keeps its number and gets the time of the edit as the
    time of its last update, even when the body has no field at all. *)
Theorem putBus_number (db : DB) (id other : string) (bus bus2 : Bus)
    (body : BusBody) (now : Date) :
  collection_ok db ->
  db !! id = Some bus ->
  db !! other = Some bus2 ->
  other <> id ->
  (forall number, put_busNumber body = Some number -> trim number = "" ->
     putBus db id body now = (db, Reply400)) /\
  (forall number, put_busNumber body = Some number ->
     trim number = busNumber bus2 ->
     putValidation body = true ->
     putBus db id body now = (db, Reply500)) /\
  (put_busNumber body = None ->
   putValidation body = true ->
   exists stored,
     putBus db id body now = (<[id := stored]> db, Reply200 stored) /\
     busNumber stored = busNumber bus /\
     lastUpdated stored = Some now).
Proof.
  intros [Hdocs Huniq] Hbus Hother Hne. split; [|split].
  - intros number Hnum Hempty. unfold putBus, putValidation.
    rewrite Hnum, Hempty. reflexivity.
  - intros number Hnum Htrim Hvalid. unfold putBus. rewrite Hvalid, Hbus.
    cbn [negb].
    assert (Hnonempty : (busNumber bus2 =? "")%string = false).
    { unfold putValidation in Hvalid. rewrite Hnum, Htrim in Hvalid.
      apply andb_true_iff in Hvalid as [Hvalid _].
      now apply negb_true_iff in Hvalid. }
    assert (Hnew : busNumber (putUpdates bus body now) = busNumber bus2).
    { cbn [putUpdates busNumber]. rewrite Hnum.
      change (trim <$> Some number) with (Some (trim number)).
      rewrite Htrim. cbn [truthy_string]. now rewrite Hnonempty. }
    rewrite Hnew.
    replace (number_taken db id (busNumber bus2)) with true; [reflexivity|].
    symmetry. apply number_taken_true. now exists other, bus2.
  - intros Hnum Hvalid. unfold putBus. rewrite Hvalid, Hbus. cbn [negb].
    assert (Hnew : busNumber (putUpdates bus body now) = busNumber bus).
    { cbn [putUpdates busNumber]. now rewrite Hnum. }
    rewrite Hnew.
    replace (number_taken db id (busNumber bus)) with false.
    + exists (putUpdates bus body now). now repeat split.
    + symmetry. apply number_taken_false. intros j b Hj Hj' Heq.
      apply Hj'. now apply (Huniq j id b bus).
Qed.

Lemma two_buses_ok : collection_ok (<["b2" := other_bus]> fresh_fleet).
Proof.
  apply collection_ok_insert.
  - apply fresh_fleet_ok.
  - reflexivity.
  - cbn. lra.
  - intros j b Hj _. unfold fresh_fleet in Hj.
    apply lookup_singleton_Some in Hj as [_ <-]. discriminate.
Qed.

Lemma putBus_number_witness :
  putBus (<["b2" := other_bus]> fresh_fleet) "b1"
    (mkBusBody (Some " 7 ") None None None) 5000%Z
  = (<["b2" := other_bus]> fresh_fleet, Reply500).
Proof.
  apply (putBus_number (<["b2" := other_bus]> fresh_fleet) "b1" "b2"
           fresh_bus other_bus (mkBusBody (Some " 7 ") None None None) 5000%Z)
    with (number := " 7 ").
  - apply two_buses_ok.
  - rewrite lookup_insert_ne by discriminate. apply lookup_singleton_eq.
  - apply lookup_insert_eq.
  - discriminate.
  - reflexivity.
  - reflexivity.
  - reflexivity.
Defined.

(** X21.  An edit restarts the clock of the derived speed and does not
    move the point that distances are measured from: after a successful
    [PUT /:id] at time [edited], a later location update without a speed
    measures its distance from the last recorded sample, also when the
    edit has changed the current location, and, when that distance is
    positive, stores the distance divided by the hours since the edit. *)
Theorem putBus_then_patchLocation (db : DB) (id : string) (bus edited_bus : Bus)
    (edit : BusBody) (edited : Date) (body : LocationBody) (now : Date)
    (inc : R) :
  db !! id = Some bus ->
  putBus db id edit edited = (<[id := edited_bus]> db, Reply200 edited_bus) ->
  body_speed body = None ->
  (edited < now)%Z ->
  distanceIncrement bus (body_latitude body) (body_longitude body) = Some inc ->
  0 < inc ->
  exists stored,
    db_after (patchLocation (fst (putBus db id edit edited)) id body now) !! id
    = Some stored /\
    totalDistance (tripStats stored) = totalDistance (tripStats bus) + inc /\
    speed stored = inc / (IZR (now - edited) / (1000 * 60 * 60)).
Proof.
  intros Hbus Hput Hspeed Hlater Hinc Hpos.
  assert (Hedited : edited_bus = putUpdates bus edit edited).
  { unfold putBus in Hput. destruct (negb (putValidation edit)); [discriminate|].
    rewrite Hbus in Hput.
    destruct (number_taken db id _); [discriminate|].
    injection Hput as _ Heq. now symmetry. }
  rewrite Hput. cbn [fst].
  assert (Hsame : distanceIncrement edited_bus (body_latitude body)
                    (body_longitude body) = Some inc).
  { rewrite Hedited. exact Hinc. }
  destruct (patchLocation_stored (<[id := edited_bus]> db) id edited_bus body
              now inc (lookup_insert_eq _ _ _) Hsame)
    as (stored & _ & -> & Hstored & Htotal & _).
  cbn [db_after]. exists stored. rewrite lookup_insert_eq.
  split; [reflexivity|]. split; [now rewrite Htotal, Hedited|].
  rewrite Hstored, Hspeed.
  apply calculatedSpeed_derived; [reflexivity|assumption| |].
  - now rewrite Hedited.
  - assert (Hz : 0 < IZR (now - edited)) by (apply IZR_lt; lia).
    unfold Rdiv. apply Rmult_lt_0_compat; [assumption|].
    apply Rinv_0_lt_compat. lra.
Qed.

Lemma putBus_then_patchLocation_witness :
  exists stored,
    db_after (patchLocation
                (fst (putBus fleet "b1" (mkBusBody None None None None)
                        3601000%Z))
                "b1" (sample_north None) 7201000%Z) !! "b1"
    = Some stored /\
    totalDistance (tripStats stored)
    = totalDistance (tripStats moving_bus) + 6371 * (PI / 180) /\
    speed stored
    = 6371 * (PI / 180) / (IZR (7201000 - 3601000) / (1000 * 60 * 60)).
Proof.
  apply (putBus_then_patchLocation fleet "b1" moving_bus
           (putUpdates moving_bus (mkBusBody None None None None) 3601000%Z)).
  - apply lookup_singleton_eq.
  - unfold putBus, fleet. cbn [putValidation put_busNumber put_route andb negb].
    rewrite lookup_singleton_eq.
    replace (number_taken _ _ _) with false; [reflexivity|].
    symmetry. apply number_taken_false. intros j b Hj Hne.
    apply lookup_singleton_Some in Hj as [<- _]. contradiction.
  - reflexivity.
  - lia.
  - cbn [sample_north body_latitude body_longitude].
    apply moving_bus_increment.
  - pose proof PI_RGT_0. lra.
Defined.

(** X22.  After [DELETE /:id] the bus is gone, whether or not it existed:
    reading it, updating its location, resetting its distance and deleting
    it again are all answered 404, with no change and no event; the other
    buses are as they were. *)
Theorem deleteBus_then_not_found (db : DB) (id : string)
    (body : LocationBody) (now : Date) :
  let db' := fst (deleteBus db id) in
  getBus db' id = Reply404 /\
  patchLocation db' id body now
  = {| db_after := db'; emitted := []; response := NotFound |} /\
  resetDistance db' id now
  = {| db_after := db'; emitted := []; response := NotFound |} /\
  deleteBus db' id = (db', Reply404) /\
  snd (deleteBus db id)
  = match db !! id with Some _ => Reply200_deleted | None => Reply404 end /\
  forall other, other <> id -> db' !! other = db !! other.
Proof.
  cbn zeta.
  assert (Hgone : fst (deleteBus db id) !! id = None).
  { unfold deleteBus. destruct (db !! id) eqn:Hbus; cbn [fst].
    - apply lookup_delete_eq.
    - assumption. }
  assert (Hsnd : snd (deleteBus db id)
                 = match db !! id with
                   | Some _ => Reply200_deleted
                   | None => Reply404
                   end).
  { unfold deleteBus. now destruct (db !! id). }
  assert (Hothers : forall other, other <> id ->
                      fst (deleteBus db id) !! other = db !! other).
  { intros other Hne. unfold deleteBus. destruct (db !! id); cbn [fst];
      [|reflexivity]. now rewrite lookup_delete_ne. }
  set (db' := fst (deleteBus db id)) in *. clearbody db'.
  split; [unfold getBus; now rewrite Hgone|].
  split; [unfold patchLocation; now rewrite Hgone|].
  split; [unfold resetDistance; now rewrite Hgone|].
  split; [unfold deleteBus; now rewrite Hgone|].
  split; assumption.
Qed.

(** One request: a bus that is still there has not lost total distance. *)
Lemma handle_admin_total (db : DB) (req : AdminRequest) (id : string)
    (bus1 : Bus) :
  handle_admin db req !! id = Some bus1 ->
  exists bus, db !! id = Some bus /\
    totalDistance (tripStats bus) <= totalDistance (tripStats bus1).
Proof.
  destruct req as [[i body now|i now]|i body now|i]; cbn [handle_admin handle].
  - destruct (db !! i) as [b|] eqn:Hb.
    + rewrite (patchLocation_found db i b) by assumption.
      destruct (updatedBus b body now) as [b'|] eqn:Hup; cbn [db_after].
      * destruct (decide (i = id)) as [->|Hne].
        -- rewrite lookup_insert_eq. intros [= <-]. exists b.
           split; [assumption|].
           apply updatedBus_Some in Hup as (inc & _ & Hinc & ->).
           cbn [tripStats totalDistance]. lra.
        -- rewrite lookup_insert_ne by assumption. intros H. exists bus1.
           split; [assumption|lra].
      * intros H. exists bus1. split; [assumption|lra].
    + unfold patchLocation. rewrite Hb. cbn [db_after].
      intros H. exists bus1. split; [assumption|lra].
  - unfold resetDistance. destruct (db !! i) as [b|] eqn:Hb; cbn [db_after].
    + destruct (decide (i = id)) as [->|Hne].
      * rewrite lookup_insert_eq. intros [= <-]. exists b. split; [assumption|].
        cbn [resetBus tripStats totalDistance]. lra.
      * rewrite lookup_insert_ne by assumption. intros H. exists bus1.
        split; [assumption|lra].
    + intros H. exists bus1. split; [assumption|lra].
  - unfold putBus. destruct (negb (putValidation body));
      [cbn [fst]; intros H; exists bus1; split; [assumption|lra]|].
    destruct (db !! i) as [b|] eqn:Hb.
    + destruct (number_taken db i _); cbn [fst].
      * intros H. exists bus1. split; [assumption|lra].
      * destruct (decide (i = id)) as [->|Hne].
        -- rewrite lookup_insert_eq. intros [= <-]. exists b.
           split; [assumption|]. cbn [putUpdates tripStats]. lra.
        -- rewrite lookup_insert_ne by assumption. intros H. exists bus1.
           split; [assumption|lra].
    + cbn [fst]. intros H. exists bus1. split; [assumption|lra].
  - unfold deleteBus. destruct (db !! i) as [b|] eqn:Hb; cbn [fst].
    + intros H. apply lookup_delete_Some in H as [_ H]. exists bus1.
      split; [assumption|lra].
    + intros H. exists bus1. split; [assumption|lra].
Qed.

(** X23.  The total distance of a bus is never reset and never decreases:
    a bus that is in the collection after any sequence of location
    updates, daily resets, edits and deletions was in it before, with a
    total distance that is not larger than the one it has now. *)
Theorem totalDistance_never_decreases (reqs : list AdminRequest) (db : DB)
    (id : string) (bus' : Bus) :
  handle_admin_all db reqs !! id = Some bus' ->
  exists bus, db !! id = Some bus /\
    totalDistance (tripStats bus) <= totalDistance (tripStats bus').
Proof.
  revert db. induction reqs as [|req reqs IH]; intros db Hafter.
  - exists bus'. split; [assumption|lra].
  - unfold handle_admin_all in Hafter. cbn [fold_left] in Hafter.
    destruct (IH _ Hafter) as (bus1 & Hbus1 & Hle1).
    destruct (handle_admin_total db req id bus1 Hbus1) as (bus & Hbus & Hle).
    exists bus. split; [assumption|lra].
Qed.

Lemma totalDistance_never_decreases_witness :
  exists bus, fleet !! "b1" = Some bus /\
    totalDistance (tripStats bus)
    <= totalDistance
         (tripStats (default moving_bus
                       (updatedBus (resetBus moving_bus 2000%Z)
                          (sample_north None) 3000%Z))).
Proof.
  apply (totalDistance_never_decreases
           [Trip (ResetDistance "b1" 2000%Z);
            Trip (PatchLocation "b1" (sample_north None) 3000%Z)]
           fleet "b1").
  unfold handle_admin_all, fleet. cbn [fold_left handle_admin handle].
  rewrite (resetDistance_found _ "b1" moving_bus) by apply lookup_singleton_eq.
  cbn [db_after].
  rewrite (patchLocation_found _ "b1" (resetBus moving_bus 2000%Z))
    by apply lookup_insert_eq.
  unfold updatedBus.
  rewrite (distanceIncrement_last (resetBus moving_bus 2000%Z) origin)
    by reflexivity.
  cbn [db_after]. apply lookup_insert_eq.
Defined.

End BusEdits.

(** ** Rooms and deliveries *)

Section Deliveries.
Import JS BusRoutes Server NotificationRoutes Spec Scenario.

Lemma room_of_inj (a b : string) : room_of a = room_of b -> a = b.
Proof. unfold room_of. apply String.app_inj. Qed.

Lemma user_room_not_bus_room (userId busId : string) :
  "user-" +:+ userId <> room_of busId.
Proof. unfold room_of. cbn. discriminate. Qed.

(** An event of a socket about one room leaves the other rooms alone. *)
Lemma subscribers_other_room (rooms : Rooms) (socket busId room : string) :
  room <> room_of busId ->
  subscribers (on_event rooms socket (JoinBusTracking busId)) room
  = subscribers rooms room /\
  subscribers (on_event rooms socket (LeaveBusTracking busId)) room
  = subscribers rooms room.
Proof.
  intros Hne. cbn [on_event]. unfold socket_join, socket_leave, subscribers.
  split.
  - now rewrite lookup_insert_ne by congruence.
  - destruct (rooms !! room_of busId); [|reflexivity].
    now rewrite lookup_insert_ne by congruence.
Qed.

(** The event of a location update over HTTP reaches no socket. *)
Lemma receivers_patchLocation (rooms : Rooms) (db : DB) (id : string)
    (body : LocationBody) (now : Date) :
  receivers rooms (emitted (patchLocation db id body now)) = ∅.
Proof.
  unfold patchLocation. rewrite App_get_io.
  destruct (db !! id) as [bus|]; [|reflexivity].
  destruct (updatedBus bus body now); reflexivity.
Qed.

(** X24.  A location update over HTTP ([PATCH /:id/location]) is
    delivered to no socket.  A location relayed over a socket
    (['update-bus-location']) is delivered to exactly the sockets in the
    room of the bus, whoever sends it: a socket that has just joined the
    tracking of the bus receives it; a socket that has just left it, or
    has disconnected, does not; and joining or leaving the tracking of
    another bus changes nothing for this one.  The relayed event carries
    the bus id and the location of the sender and the time of the
    relay. *)
Theorem location_update_fan_out (rooms : Rooms) (db : DB) (id : string)
    (body : LocationBody) (now : Date) (socket sender : string)
    (loc : LocationUtils.Coordinate) :
  let delivered_in r := fst (on_update_bus_location r sender id loc now) in
  receivers rooms (emitted (patchLocation db id body now)) = ∅ /\
  delivered_in rooms = subscribers rooms (room_of id) /\
  (socket ∈ delivered_in (on_event rooms socket (JoinBusTracking id))) /\
  (socket ∉ delivered_in (on_event rooms socket (LeaveBusTracking id))) /\
  (socket ∉ delivered_in (on_event rooms socket Disconnect)) /\
  (forall other, other <> id ->
     delivered_in (on_event rooms socket (JoinBusTracking other))
     = delivered_in rooms /\
     delivered_in (on_event rooms socket (LeaveBusTracking other))
     = delivered_in rooms) /\
  snd (on_update_bus_location rooms sender id loc now)
  = {| relay_busId := id; relay_location := loc; relay_timestamp := now |}.
Proof.
  cbv beta zeta. unfold on_update_bus_location, io_to. cbn [fst snd].
  split; [apply receivers_patchLocation|]. split; [reflexivity|].
  split; [cbn [on_event]; rewrite subscribers_join; set_solver|].
  split; [cbn [on_event]; rewrite subscribers_leave; set_solver|].
  split; [cbn [on_event]; rewrite subscribers_leave_all; set_solver|].
  split; [|reflexivity].
  intros other Hne. apply subscribers_other_room. intros Heq. apply Hne.
  symmetry. now apply room_of_inj.
Qed.

Lemma on_event_only_bus_rooms (rooms : Rooms) (socket : string)
    (ev : SocketEvent) :
  only_bus_rooms rooms -> only_bus_rooms (on_event rooms socket ev).
Proof.
  intros Hok room Hroom. destruct ev as [busId|busId|].
  - destruct (subscribers_other_room rooms socket busId room (Hroom busId))
      as [-> _]. now apply Hok.
  - destruct (subscribers_other_room rooms socket busId room (Hroom busId))
      as [_ ->]. now apply Hok.
  - cbn [on_event]. rewrite subscribers_leave_all, (Hok room Hroom). set_solver.
Qed.

Lemma on_events_only_bus_rooms (events : list (string * SocketEvent))
    (rooms : Rooms) :
  only_bus_rooms rooms -> only_bus_rooms (on_events rooms events).
Proof.
  revert rooms. induction events as [|e events IH]; intros rooms Hok;
    [assumption|].
  unfold on_events. cbn [fold_left]. apply IH.
  now apply on_event_only_bus_rooms.
Qed.

(** X25.  The handlers of the server put sockets into rooms of buses
    only: after any events of any sockets, starting with no socket in any
    room, every room named [user-<id>] is empty, so that each room that
    the creation of a notification addresses for its target users has no
    socket in it. *)
Theorem targeted_notification_reaches_nobody
    (events : list (string * SocketEvent)) (targetUsers : list string)
    (room : string) :
  ToRoom room ∈ emissions (Some targetUsers) ->
  io_to (on_events ∅ events) room = ∅.
Proof.
  intros Hroom. unfold io_to.
  assert (Huser : exists userId, room = "user-" +:+ userId).
  { unfold emissions in Hroom. destruct targetUsers as [|t ts].
    - apply list_elem_of_singleton in Hroom. discriminate.
    - apply list_elem_of_In in Hroom.
      change (In (ToRoom room)
                (map (fun userId => ToRoom ("user-" +:+ userId)) (t :: ts)))
        in Hroom.
      apply in_map_iff in Hroom as (userId & Heq & _).
      exists userId. now injection Heq. }
  destruct Huser as [userId ->].
  apply (on_events_only_bus_rooms events ∅).
  - intros r _. unfold subscribers. now rewrite lookup_empty.
  - intros busId. apply user_room_not_bus_room.
Qed.

Lemma targeted_notification_reaches_nobody_witness :
  io_to (on_events ∅ [("socket-1", JoinBusTracking "b1")]) "user-u1" = ∅.
Proof.
  apply (targeted_notification_reaches_nobody
           [("socket-1", JoinBusTracking "b1")] ["u1"] "user-u1").
  apply list_elem_of_singleton. reflexivity.
Defined.

End Deliveries.

(** ** Tracked buses of a user *)

Section TrackedBuses.
Import UserRoutes.

Lemma includes_elem_of (l : list string) (b : string) :
  includes l b = true <-> b ∈ l.
Proof.
  unfold includes. rewrite existsb_exists. split.
  - intros (x & Hin & Heq). apply String.eqb_eq in Heq as ->.
    now apply list_elem_of_In.
  - intros Hin. exists b. split; [now apply list_elem_of_In|].
    apply String.eqb_refl.
Qed.

Lemma includes_false (l : list string) (b : string) :
  includes l b = false <-> b ∉ l.
Proof. rewrite <- includes_elem_of. symmetry. apply not_true_iff_false. Qed.

Lemma remove_elem_of (l : list string) (b x : string) :
  x ∈ List.filter (fun c => negb (String.eqb c b)) l <-> x ∈ l /\ x <> b.
Proof.
  rewrite !list_elem_of_In, filter_In, negb_true_iff, String.eqb_neq.
  reflexivity.
Qed.

Lemma remove_absent (l : list string) (b : string) :
  b ∉ l -> List.filter (fun c => negb (String.eqb c b)) l = l.
Proof.
  induction l as [|x l IH]; intros Hb; [reflexivity|].
  apply not_elem_of_cons in Hb as [Hne Hb]. cbn [List.filter].
  apply not_eq_sym, String.eqb_neq in Hne. rewrite Hne. cbn [negb].
  now rewrite IH.
Qed.

Lemma remove_last (l : list string) (b : string) :
  b ∉ l -> List.filter (fun c => negb (String.eqb c b)) (l ++ [b]) = l.
Proof.
  intros Hb. rewrite List.filter_app, remove_absent by assumption.
  cbn [List.filter]. rewrite String.eqb_refl. cbn [negb]. apply app_nil_r.
Qed.

Lemma remove_NoDup (l : list string) (b : string) :
  NoDup l -> NoDup (List.filter (fun c => negb (String.eqb c b)) l).
Proof.
  induction 1 as [|x l Hx Hl IH]; cbn [List.filter]; [constructor|].
  destruct (negb (String.eqb x b)); [|assumption].
  constructor; [|assumption]. rewrite remove_elem_of. tauto.
Qed.

Lemma handle_track_NoDup (buses : gmap string BusRoutes.Bus)
    (tracked : list string) (req : TrackRequest) :
  NoDup tracked ->
  NoDup (handle_track buses tracked req) /\
  forall b, b ∈ handle_track buses tracked req ->
            b ∈ tracked \/ is_Some (buses !! b).
Proof.
  intros Hnd. destruct req as [busId|busId]; cbn [handle_track].
  - unfold trackBus. destruct (buses !! busId) as [bus|] eqn:Hbus;
      [|split; [assumption|now left]].
    destruct (includes tracked busId) eqn:Hinc; cbn [fst];
      [split; [assumption|now left]|].
    apply includes_false in Hinc. split.
    + apply NoDup_app. split; [assumption|]. split.
      * intros x Hx Hx'. apply list_elem_of_singleton in Hx' as ->. contradiction.
      * apply NoDup_singleton.
    + intros b Hb. apply elem_of_app in Hb as [Hb|Hb]; [now left|].
      apply list_elem_of_singleton in Hb as ->. right. now rewrite Hbus.
  - unfold untrackBus. destruct (negb (includes tracked busId)); cbn [fst].
    + split; [assumption|now left].
    + split; [now apply remove_NoDup|].
      intros b Hb. apply remove_elem_of in Hb as [Hb _]. now left.
Qed.

(** X26.  Starting from a list without repetition, the list of tracked
    buses of a user never holds a bus twice, whatever track and untrack
    requests are made, and every bus in it was in it at the start or was
    a bus of the collection. *)
Theorem tracked_buses_no_duplicates (buses : gmap string BusRoutes.Bus)
    (reqs : list TrackRequest) (tracked : list string) :
  NoDup tracked ->
  NoDup (fold_left (handle_track buses) reqs tracked) /\
  forall b, b ∈ fold_left (handle_track buses) reqs tracked ->
            b ∈ tracked \/ is_Some (buses !! b).
Proof.
  revert tracked. induction reqs as [|req reqs IH]; intros tracked Hnd.
  - split; [assumption|now left].
  - cbn [fold_left].
    destruct (handle_track_NoDup buses tracked req Hnd) as [Hnd1 Hin1].
    destruct (IH _ Hnd1) as [Hnd2 Hin2]. split; [assumption|].
    intros b Hb. destruct (Hin2 b Hb) as [Hb1|Hb1]; [|now right].
    now apply Hin1.
Qed.

Lemma tracked_buses_no_duplicates_witness :
  NoDup (fold_left (handle_track Scenario.fleet)
           [TrackBus "b1"; TrackBus "b1"; UntrackBus "b1"; TrackBus "b1"] []).
Proof.
  apply (tracked_buses_no_duplicates Scenario.fleet
           [TrackBus "b1"; TrackBus "b1"; UntrackBus "b1"; TrackBus "b1"] []).
  apply NoDup_nil_2.
Defined.

(** X27.  Tracking a bus of the collection that is not tracked yet adds
    it at the end of the list; tracking it again is refused with 'already
    being tracked' and changes nothing; untracking it gives back the list
    as it was; and untracking it once more is refused with 'not being
    tracked'. *)
Theorem track_then_untrack (buses : gmap string BusRoutes.Bus)
    (tracked : list string) (busId : string) :
  is_Some (buses !! busId) ->
  busId ∉ tracked ->
  trackBus buses tracked busId = (tracked ++ [busId], TrackOk) /\
  trackBus buses (tracked ++ [busId]) busId
  = (tracked ++ [busId], AlreadyTracked) /\
  untrackBus (tracked ++ [busId]) busId = (tracked, TrackOk) /\
  untrackBus tracked busId = (tracked, NotTracked).
Proof.
  intros [bus Hbus] Hnot. pose proof Hnot as Hinc.
  apply includes_false in Hinc.
  assert (Hinc' : includes (tracked ++ [busId]) busId = true).
  { apply includes_elem_of, elem_of_app. right. now apply list_elem_of_singleton. }
  unfold trackBus, untrackBus. rewrite Hbus, Hinc, Hinc'. cbn [negb].
  rewrite remove_last by assumption. now repeat split.
Qed.

Lemma track_then_untrack_witness :
  trackBus Scenario.fleet [] "b1" = ([] ++ ["b1"], TrackOk) /\
  trackBus Scenario.fleet ([] ++ ["b1"]) "b1" = ([] ++ ["b1"], AlreadyTracked) /\
  untrackBus ([] ++ ["b1"]) "b1" = ([], TrackOk) /\
  untrackBus [] "b1" = ([], NotTracked).
Proof.
  apply (track_then_untrack Scenario.fleet [] "b1").
  - exists Scenario.moving_bus. apply lookup_singleton_eq.
  - apply not_elem_of_nil.
Defined.

End TrackedBuses.

(** ** Targets of a notification *)

Section NotificationTargets.
Import NotificationRoutes.

Lemma size_list_to_set_le (l : list string) :
  (size (list_to_set l : gset string) <= length l)%nat /\
  (size (list_to_set l : gset string) = length l -> NoDup l).
Proof.
  induction l as [|x l [IHle IHnd]].
  - split; [|intros _; constructor].
    cbn [list_to_set foldr length]. rewrite size_empty. lia.
  - rewrite list_to_set_cons, size_union_alt, size_singleton. cbn [length].
    pose proof (subseteq_size (list_to_set l ∖ {[x]} : gset string)
                  (list_to_set l)) as Hsub.
    destruct (decide (x ∈ l)) as [Hin|Hnot].
    + assert (Hlt : (size (list_to_set l ∖ {[x]} : gset string)
                     < size (list_to_set l : gset string))%nat).
      { apply subset_size. set_solver. }
      split; lia.
    + assert (Heq : (list_to_set l ∖ {[x]} : gset string) = list_to_set l)
        by set_solver.
      rewrite Heq. split; [lia|].
      intros Hsize. constructor; [assumption|]. apply IHnd. lia.
Qed.

Lemma usersExist_complete (users : gset string) (targets : list string) :
  length (usersExist users targets) = length targets <->
  NoDup targets /\ forall x, x ∈ targets -> x ∈ users.
Proof.
  unfold usersExist.
  change (length (elements (users ∩ list_to_set targets)))
    with (size (users ∩ list_to_set targets)).
  destruct (size_list_to_set_le targets) as [Hle Hnd].
  pose proof (subseteq_size (users ∩ list_to_set targets)
                (list_to_set targets)) as Hsub.
  split.
  - intros Hsize.
    assert (Hsubset : users ∩ list_to_set targets ⊆ list_to_set targets)
      by set_solver.
    specialize (Hsub Hsubset). split; [apply Hnd; lia|].
    assert (Heq : users ∩ list_to_set targets = list_to_set targets).
    { apply set_subseteq_size_eq; [assumption|lia]. }
    intros x Hx. set_solver.
  - intros [Hno Hall].
    assert (Heq : users ∩ list_to_set targets = list_to_set targets)
      by set_solver.
    rewrite Heq. now apply size_list_to_set.
Qed.

(** X28.  The creation of a notification for a non-empty list of target
    users is refused with 'One or more target users not found', and
    nothing is saved, exactly when the list names an unknown user or
    names a user twice.  Otherwise, and also without targets, the
    notification is saved, but nothing is emitted and the answer is 500:
    the rooms [user-<id>] of the targets, in the order of the list, or
    everybody when there are no targets, are what the handler would
    address. *)
Theorem notification_targets (users : gset string) (targets : list string) :
  targets <> [] ->
  (NoDup targets /\ (forall x, x ∈ targets -> x ∈ users) ->
   createNotification users (Some targets)
   = {| saved := true; emits := []; reply := CreateFailed |}) /\
  (~ (NoDup targets /\ (forall x, x ∈ targets -> x ∈ users)) ->
   createNotification users (Some targets)
   = {| saved := false; emits := []; reply := TargetsNotFound |}) /\
  createNotification users None
  = {| saved := true; emits := []; reply := CreateFailed |} /\
  createNotification users (Some [])
  = {| saved := true; emits := []; reply := CreateFailed |} /\
  emissions (Some targets)
  = map (fun userId => ToRoom ("user-" +:+ userId)) targets /\
  emissions None = [ToAll] /\
  emissions (Some []) = [ToAll].
Proof.
  intros Hne. destruct targets as [|t ts]; [contradiction|].
  unfold createNotification, targets_missing. rewrite App_get_io.
  pose proof (usersExist_complete users (t :: ts)) as Hiff.
  destruct (Nat.eqb_spec (length (usersExist users (t :: ts)))
              (length (t :: ts))) as [Heq|Hneq]; cbn [negb].
  - split; [reflexivity|]. split; [|now repeat split].
    intros Hbad. exfalso. apply Hbad. now apply Hiff.
  - split; [|now repeat split].
    intros Hgood. exfalso. apply Hneq. now apply Hiff.
Qed.

Lemma notification_targets_witness :
  createNotification {["u1"]} (Some ["u1"])
  = {| saved := true; emits := []; reply := CreateFailed |} /\
  createNotification {["u1"]} (Some ["u1"; "u1"])
  = {| saved := false; emits := []; reply := TargetsNotFound |}.
Proof.
  split.
  - refine (proj1 (notification_targets {["u1"]} ["u1"] _) _); [discriminate|].
    split; [apply NoDup_singleton|].
    intros x Hx. apply list_elem_of_singleton in Hx as ->.
    now apply elem_of_singleton.
  - refine (proj1 (proj2 (notification_targets {["u1"]} ["u1"; "u1"] _)) _);
      [discriminate|].
    intros [Hnd _]. apply NoDup_cons in Hnd as [Hnot _]. apply Hnot.
    now apply list_elem_of_singleton.
Defined.

End NotificationTargets.

(** ** The tracking page *)

Section TrackingPage.
Import JS LocationUtils NotificationUtils BusTracking Spec.

Lemma apply_update_ids (data : BusUpdate) (l : list Bus) (wanted : string) :
  existsb (fun bus => String.eqb (bus_id bus) wanted) (apply_update data l)
  = existsb (fun bus => String.eqb (bus_id bus) wanted) l.
Proof.
  unfold apply_update. induction l as [|b l IH]; [reflexivity|].
  cbn [map existsb]. rewrite IH.
  destruct (String.eqb (bus_id b) (busId data)); reflexivity.
Qed.

Lemma untrack_not_tracking (l : list Bus) (busId other : string) :
  existsb (fun bus => String.eqb (bus_id bus) other)
    (List.filter (fun bus => negb (String.eqb (bus_id bus) busId)) l)
  = existsb (fun bus => String.eqb (bus_id bus) other) l
    && negb (String.eqb busId other).
Proof.
  induction l as [|b l IH]; [reflexivity|]. cbn [List.filter existsb].
  destruct (String.eqb_spec (bus_id b) busId) as [Hb|Hb]; cbn [negb existsb].
  - rewrite IH, Hb.
    destruct (String.eqb busId other); cbn [negb orb]; [|reflexivity].
    now rewrite !andb_false_r.
  - rewrite IH. destruct (String.eqb_spec (bus_id b) other) as [Ho|Ho];
      cbn [orb]; [|reflexivity].
    destruct (String.eqb_spec busId other) as [Heq|_]; [congruence|].
    cbn [negb]. now rewrite andb_true_r.
Qed.

(** X29.  On the page, a location update never changes which buses are
    tracked; untracking a bus makes it untracked and leaves the tracking
    of the other buses alone; tracking a bus makes it tracked when the bus
    is among the buses of the page; and a request that the server refuses
    changes nothing. *)
Theorem page_tracking (perm : Permission) (capturedTracked : list Bus)
    (capturedStops : list Stop) (st : PageState) (data : BusUpdate)
    (busId other : string) :
  isTracking (fst (onBusLocationUpdate perm capturedTracked capturedStops
                     st data)) other
  = isTracking st other /\
  isTracking (handleUntrackBus true st busId) other
  = isTracking st other && negb (String.eqb busId other) /\
  isTracking (handleTrackBus true st busId) busId
  = isTracking st busId
    || existsb (fun b => String.eqb (bus_id b) busId) (buses st) /\
  handleUntrackBus false st busId = st /\
  handleTrackBus false st busId = st.
Proof.
  unfold isTracking. split; [apply apply_update_ids|].
  split; [apply untrack_not_tracking|]. split; [|split; reflexivity].
  unfold handleTrackBus.
  destruct (find _ (buses st)) as [bus|] eqn:Hfind.
  - cbn [trackedBuses]. rewrite existsb_app. cbn [existsb].
    apply find_some in Hfind as [Hin Hid]. rewrite Hid. cbn [orb].
    replace (existsb _ (buses st)) with true; [reflexivity|].
    symmetry. apply existsb_exists. now exists bus.
  - replace (existsb _ (buses st)) with false; [now rewrite orb_false_r|].
    symmetry. apply not_true_iff_false. intros Hex.
    apply existsb_exists in Hex as (b & Hin & Hid).
    pose proof (find_none _ _ Hfind b Hin) as Hno. cbn beta in Hno.
    congruence.
Qed.

(** X30.  The arrival time shown for a bus is the time to the stop that
    is nearest to the user, the first such stop of the list, at 30 km/h,
    not to the stop that is nearest to the bus; nothing is shown while the
    user location or the bus location is unknown, or when there are no
    stops. *)
Theorem getBusETA_to_stop_nearest_user (user bus : Coordinate)
    (stops : list Stop) :
  match getBusETA (Some user) stops (Some bus) with
  | Some shown =>
      exists i stop,
        first_nearest user stops i stop /\
        shown = calculateETA bus (location stop) None
  | None => stops = []
  end /\
  getBusETA None stops (Some bus) = None /\
  getBusETA (Some user) stops None = None.
Proof.
  split; [|split; reflexivity].
  unfold getBusETA, findNearestStop. destruct stops as [|s0 rest]; [reflexivity|].
  destruct (nearest_loop_invariant user rest [s0] 0 s0)
    as (i & stop & Hloop & Hfirst).
  { repeat split.
    - intros j s Hj. apply list_lookup_singleton_Some in Hj as [_ <-]. lra.
    - intros j s Hj. lia. }
  rewrite Hloop. cbn [sd_stop]. now exists i, stop.
Qed.

End TrackingPage.
